(** * aavetracker: the per-chain monitoring engine of [backend/connector.py]

    A shallow embedding of [make_batches], [BaseConnector.__init__],
    [health_factor_periodic_task], [monitor_health_factor],
    [catchup_on_liquidations], [process_liquidation_log] and
    [monitor_liquidations], with the properties the specification states
    about them. *)

From Stdlib Require Import ZArith List Lia.
From stdpp Require Import base list strings gmap.

Local Open Scope string_scope.
Local Open Scope list_scope.
Local Open Scope Z_scope.

(** ** Python values and exceptions *)

(** The exceptions the module raises itself, and the ones that reach it from
    its collaborators. *)
Inductive exn : Type :=
| ValueError (msg : string)
| AssertionError (msg : string)
| TypeError (msg : string)
| StartupException (msg : string)
| RecursionError (msg : string)
| UnicodeDecodeError (msg : string)
| ExternalError (msg : string).

(** The outcome of a call that returns or raises. *)
Inductive result (A : Type) : Type :=
| Ok (a : A)
| Raise (e : exn).
Arguments Ok {A} a.
Arguments Raise {A} e.

Module Py.

(** [len(range(start, stop, step))] for a non-zero step. *)
Definition range_len (start stop step : Z) : Z :=
  if 0 <? step
  then (if start <? stop then (stop - start - 1) / step + 1 else 0)
  else (if stop <? start then (start - stop - 1) / (- step) + 1 else 0).

(** [range(start, stop, step)]: a zero step raises [ValueError]. *)
Definition range (start stop step : Z) : result (list Z) :=
  if step =? 0
  then Raise (ValueError "range() arg 3 must not be zero")
  else Ok (map (fun k : nat => start + Z.of_nat k * step)
               (seq 0 (Z.to_nat (range_len start stop step)))).

(** How a slice bound is brought into [0, len]: a negative bound counts from
    the end, and both ends are clipped. *)
Definition clamp (len k : Z) : Z :=
  if k <? 0
  then (if k + len <? 0 then 0 else k + len)
  else (if len <=? k then len else k).

(** [lst[i:j]]. *)
Definition slice {A : Type} (lst : list A) (i j : Z) : list A :=
  let len := Z.of_nat (length lst) in
  let a := clamp len i in
  let b := clamp len j in
  firstn (Z.to_nat (b - a)) (skipn (Z.to_nat a) lst).

End Py.

(** ** Module constants *)

Definition HEALTH_FACTOR_CHECK_PERIOD : Z := 60.
Definition HEALTH_FACTOR_BATCH_SIZE : Z := 100.

(** ** [make_batches] *)

(** The batches the generator yields, in order; the [ValueError] of a zero
    step is raised when the generator is first advanced. *)
Definition make_batches {A : Type} (lst : list A) (batch_size : Z)
  : result (list (list A)) :=
  match Py.range 0 (Z.of_nat (length lst)) batch_size with
  | Raise e => Raise e
  | Ok starts => Ok (map (fun i => Py.slice lst i (i + batch_size)) starts)
  end.

(** What the specification promises of the batches of [lst] for size [B]. *)
Definition batches_spec {A : Type} (lst : list A) (B : Z) : Prop :=
  exists bs : list (list A),
    make_batches lst B = Ok bs
    /\ concat bs = lst
    /\ (forall (i : nat) (b : list A),
          bs !! i = Some b -> (S i < length bs)%nat ->
          Z.of_nat (length b) = B)
    /\ Z.of_nat (length (List.last bs [])) =
         (if Z.of_nat (length lst) mod B =? 0
          then B else Z.of_nat (length lst) mod B).

(** *** Batches over [nat] *)

(** The [c] first windows of width [b] of [l]. *)
Definition windows {A : Type} (b c : nat) (l : list A) : list (list A) :=
  map (fun k : nat => firstn b (skipn (k * b) l)) (seq 0 c).

(** ** Decoded JSON *)

(** What [json.loads] returns: [None], a [bool], a number, a [str], a [list]
    or a [dict] (its items in order). A float keeps its literal. *)
#[warnings="-register-all"]
Inductive Json : Type :=
| JNull
| JBool (b : bool)
| JInt (n : Z)
| JFloat (literal : string)
| JStr (s : string)
| JArr (items : list Json)
| JObj (items : list (string * Json)).

(** The exceptions of [json.loads] that are not a [JSONDecodeError]: the
    [ValueError] of an integer literal of more than 4300 digits, the
    [RecursionError] of a nesting too deep, and the [UnicodeDecodeError] of a
    binary frame that is not UTF-8. *)
Inductive loads_error : Type :=
| DigitLimit (msg : string)
| TooDeep (msg : string)
| BadEncoding (msg : string).

Definition loads_exception (e : loads_error) : exn :=
  match e with
  | DigitLimit msg => ValueError msg
  | TooDeep msg => RecursionError msg
  | BadEncoding msg => UnicodeDecodeError msg
  end.

(** What [json.loads] does with a frame: it returns the decoded value, or
    raises [json.decoder.JSONDecodeError], or raises one of the other
    exceptions. *)
Inductive loaded : Type :=
| Decoded (value : Json)
| JSONDecodeError
| LoadsRaises (e : loads_error).

Module PyIn.

(** [needle in s] for two strings: [needle] occurs in [s]. *)
Fixpoint occurs (needle s : string) : bool :=
  String.prefix needle s
  || match s with
     | EmptyString => false
     | String _ rest => occurs needle rest
     end.

Definition is_str (needle : string) (j : Json) : bool :=
  match j with
  | JStr s => String.eqb s needle
  | _ => false
  end.

(** [key in value] where [key] is a [str]: a key of a [dict], an element of
    a [list], a substring of a [str]; the other values are not iterable. *)
Definition contains (key : string) (value : Json) : result bool :=
  match value with
  | JObj items => Ok (existsb (fun kv => String.eqb (fst kv) key) items)
  | JArr items => Ok (existsb (is_str key) items)
  | JStr s => Ok (occurs key s)
  | JNull | JBool _ | JInt _ | JFloat _ =>
      Raise (TypeError "argument is not iterable")
  end.

End PyIn.

Definition WS_NEW_HEADS_SUBSCRIBE_MESSAGE : Json :=
  JObj [("id", JInt 1); ("method", JStr "eth_subscribe");
        ("params", JArr [JStr "newHeads"])].

Definition build_subscription_message (pool_address liquidation_topic : string)
  : Json :=
  JObj [("id", JInt 2); ("method", JStr "eth_subscribe");
        ("params",
         JArr [JStr "getLogs";
               JObj [("address", JStr pool_address);
                     ("topics", JArr [JStr liquidation_topic])]])].

(** ** Data model *)

(** Modelled from the spec: [backend.types] is not among the sources. A
    [Chain] is an enumeration member, of which the connector reads [name];
    a [TrackedAccount] is a chain, a protocol version and an address; a
    [TrackedAccountWithHF] adds the threshold. The version is the string
    the connector compares with ['V2'] and ['V3']. *)
Record Chain : Type := { name : string }.

Record TrackedAccount : Type := {
  chain : Chain;
  aave_version : string;
  address : string
}.

Record TrackedAccountWithHF (HF : Type) : Type := {
  account : TrackedAccount;
  health_factor_threshold : HF
}.
Arguments account {HF} _.
Arguments health_factor_threshold {HF} _.

(** The comparison [health_factor < threshold] of the numbers in use. *)
Class PyLt (HF : Type) : Type := py_lt : HF -> HF -> bool.

(** A log as [web3.eth.get_logs] returns it. *)
Record Log : Type := {
  blockNumber : Z;
  log_address : string;
  log_topics : list string;
  log_data : string
}.

(** The filter given to [web3.eth.get_logs]; [fromBlock] is whatever
    [get_setting] returned, [None] included. *)
Record LogFilter : Type := {
  filter_address : string;
  filter_topics : list string;
  fromBlock : option Z;
  toBlock : string
}.

(** The blocks a filter ending at ['latest'] asks for, when the chain head is
    [latest]: from [fromBlock] on, both ends included. *)
Definition in_range (f : LogFilter) (latest block : Z) : bool :=
  match fromBlock f with
  | Some from =>
      String.eqb (toBlock f) "latest" && (from <=? block) && (block <=? latest)
  | None => false
  end.

(** A filter gives one topic for each of the first places of a log's
    topics. *)
Fixpoint topics_match (wanted found : list string) : bool :=
  match wanted, found with
  | [], _ => true
  | _ :: _, [] => false
  | topic :: wanted', signature :: found' =>
      String.eqb signature topic && topics_match wanted' found'
  end.

(** Modelled from the spec: the historical query of the Chain Endpoint
    Adapter, [getLogs(address, topics, fromBlock, toBlock)], answers with the
    logs of the chain, in order, that the contract at the address emitted with
    these topics in the blocks of the range. [ledger] is every log of the
    chain and [latest] its head. *)
Definition logs_in (ledger : list Log) (latest : Z) (f : LogFilter) : list Log :=
  List.filter (fun log => String.eqb (log_address log) (filter_address f)
                          && topics_match (filter_topics f) (log_topics log)
                          && in_range f latest (blockNumber log))
              ledger.

(** The logs of the chain that a pool emitted with a topic in the blocks
    [first] to [last], both included. *)
Definition emitted (ledger : list Log) (pool_address topic : string)
    (first last : Z) : list Log :=
  List.filter (fun log => String.eqb (log_address log) pool_address
                          && match log_topics log with
                             | signature :: _ => String.eqb signature topic
                             | [] => false
                             end
                          && (first <=? blockNumber log)
                          && (blockNumber log <=? last))
              ledger.

(** ** The world around a connector *)

Inductive level : Type := INFO | CRITICAL.

(** A call the connector makes on something outside itself. *)
Inductive event (HF : Type) : Type :=
| EvGetAccounts
| EvGetHealthFactors (version : string) (batch : list (TrackedAccountWithHF HF))
| EvNotify (a : TrackedAccountWithHF HF) (health_factor : HF)
| EvSleep (seconds : Z)
| EvGetLogs (f : LogFilter)
| EvProcessLiquidationLog (version : string) (log : Log)
| EvConnect (url : string)
| EvSend (payload : string)
| EvClose
| EvLog (lvl : level) (msg : string)
| EvPrint (value : Json).
Arguments EvGetAccounts {HF}.
Arguments EvGetHealthFactors {HF} version batch.
Arguments EvNotify {HF} a health_factor.
Arguments EvSleep {HF} seconds.
Arguments EvGetLogs {HF} f.
Arguments EvProcessLiquidationLog {HF} version log.
Arguments EvConnect {HF} url.
Arguments EvSend {HF} payload.
Arguments EvClose {HF}.
Arguments EvLog {HF} lvl msg.
Arguments EvPrint {HF} value.

(** What a collaborator answers: a value, or a failure, which reaches the
    connector as an exception of the collaborator's own. *)
Inductive answer (A : Type) : Type :=
| Returns (a : A)
| Fails (reason : string).
Arguments Returns {A} a.
Arguments Fails {A} reason.

Definition to_result {A : Type} (r : answer A) : result A :=
  match r with
  | Returns a => Ok a
  | Fails reason => Raise (ExternalError reason)
  end.

(** The collaborators and the constants the source leaves out.

    Modelled from the spec: [get_relevant_accounts_with_thresholds] and
    [get_v2_health_factors] have a docstring and no body,
    [get_v3_health_factors] is called and not defined, and the two topics
    are elided; they are the Account Registry, the batched health-factor
    query of the Chain Endpoint Adapter and the two event signatures. The
    Registry and the queries may answer differently from one cycle to the
    next, so they take the time of the call.

    A frame is given as its text; a binary frame is a text on which
    [json_loads] raises [UnicodeDecodeError]. *)
Record Env (HF : Type) : Type := {
  environ : gmap string string;
  V2_LIQUIDATION_TOPIC : string;
  V3_LIQUIDATION_TOPIC : string;
  json_loads : string -> loaded;
  json_dumps : Json -> string;
  json_str : Json -> string;
  relevant_accounts : Z -> answer (list (TrackedAccountWithHF HF));
  v2_health_factors : Z -> list (TrackedAccountWithHF HF) -> answer (list HF);
  v3_health_factors : Z -> list (TrackedAccountWithHF HF) -> answer (list HF);
  notify : TrackedAccountWithHF HF -> HF -> answer unit;
  get_logs : LogFilter -> answer (list Log);
  connect : string -> answer unit
}.
Arguments environ {HF} _.
Arguments V2_LIQUIDATION_TOPIC {HF} _.
Arguments V3_LIQUIDATION_TOPIC {HF} _.
Arguments json_loads {HF} _ _.
Arguments json_dumps {HF} _ _.
Arguments json_str {HF} _ _.
Arguments relevant_accounts {HF} _ _.
Arguments v2_health_factors {HF} _ _ _.
Arguments v3_health_factors {HF} _ _ _.
Arguments notify {HF} _ _ _.
Arguments get_logs {HF} _ _.
Arguments connect {HF} _ _.

(** The state a run goes through: the Checkpoint store behind
    [settings.get_setting], the seconds slept so far, the frames the
    websocket peer still delivers before it closes the connection, and the
    calls made so far, oldest first. *)
Record World (HF : Type) : Type := {
  settings : gmap string Z;
  clock : Z;
  inbox : list string;
  trace : list (event HF)
}.
Arguments settings {HF} _.
Arguments clock {HF} _.
Arguments inbox {HF} _.
Arguments trace {HF} _.

(** The accounts and factors handed to the Notifier, in order. *)
Definition notified {HF : Type} (tr : list (event HF))
  : list (TrackedAccountWithHF HF * HF) :=
  flat_map (fun ev => match ev with
                      | EvNotify a h => [(a, h)]
                      | _ => []
                      end) tr.

(** The historical queries issued, in order. *)
Definition queried {HF : Type} (tr : list (event HF)) : list LogFilter :=
  flat_map (fun ev => match ev with
                      | EvGetLogs f => [f]
                      | _ => []
                      end) tr.

(** The logs handed to [process_liquidation_log], in order. *)
Definition processed {HF : Type} (tr : list (event HF)) : list (string * Log) :=
  flat_map (fun ev => match ev with
                      | EvProcessLiquidationLog v log => [(v, log)]
                      | _ => []
                      end) tr.

(** The values printed, in order. *)
Definition printed {HF : Type} (tr : list (event HF)) : list Json :=
  flat_map (fun ev => match ev with
                      | EvPrint j => [j]
                      | _ => []
                      end) tr.

(** ** Computations that read and change the world, and may raise *)

Definition M (HF A : Type) : Type := World HF -> result A * World HF.

Definition ret {HF A : Type} (a : A) : M HF A := fun w => (Ok a, w).

Definition raise {HF A : Type} (e : exn) : M HF A := fun w => (Raise e, w).

Definition bind {HF A B : Type} (m : M HF A) (k : A -> M HF B) : M HF B :=
  fun w =>
    match m w with
    | (Ok a, w') => k a w'
    | (Raise e, w') => (Raise e, w')
    end.

Notation "'let*' x ':=' m 'in' k" := (bind m (fun x => k))
  (at level 10, x pattern, m at level 100, k at level 200).
Notation "m ';;' k" := (bind m (fun _ => k))
  (at level 100, k at level 200, right associativity).

Definition lift {HF A : Type} (r : result A) : M HF A := fun w => (r, w).

Definition emit {HF : Type} (ev : event HF) : M HF unit :=
  fun w =>
    (Ok tt, {| settings := settings w; clock := clock w; inbox := inbox w;
               trace := trace w ++ [ev] |}).

Definition now {HF : Type} : M HF Z := fun w => (Ok (clock w), w).

(** Modelled from the spec: [backend.settings] is not among the sources.
    [settings.get_setting(key)] is the [get(key) -> blockNumber|absent] of
    the Checkpoint store: it reads the store, and what it returns goes into
    the filter as it is. *)
Definition get_setting {HF : Type} (key : string) : M HF (option Z) :=
  fun w => (Ok (settings w !! key), w).

(** [asyncio.sleep(seconds)]. *)
Definition sleep {HF : Type} (seconds : Z) (w : World HF) : World HF :=
  {| settings := settings w; clock := clock w + seconds; inbox := inbox w;
     trace := trace w ++ [EvSleep seconds] |}.

(** [ws.recv()]: the next frame, or the failure of a closed connection. *)
Definition ws_recv {HF : Type} : M HF string :=
  fun w =>
    match inbox w with
    | [] => (Raise (ExternalError "ConnectionClosed"), w)
    | frame :: rest =>
        (Ok frame, {| settings := settings w; clock := clock w; inbox := rest;
                      trace := trace w |})
    end.

(** How a [while True] loop stands when it is looked at: still going, or
    left by an exception. It never returns. *)
Inductive loop_state : Type :=
| Running
| Stopped (e : exn).

(** ** [BaseConnector] *)

Module BaseConnector.

Record t : Type := {
  http_rpc_url : string;
  ws_rpc_url : string;
  chain : Chain;
  v2_pool_address : string;
  v3_pool_address : string
}.

Section Methods.
Context {HF : Type} `{PyLt HF} (E : Env HF).

(** [not value] for what [os.getenv] returned. *)
Definition falsy (value : option string) : bool :=
  match value with
  | None => true
  | Some s => String.eqb s ""
  end.

Definition __init__ (chain : Chain) (v2_pool_address v3_pool_address : string)
  : result t :=
  let http_rpc_url := environ E !! (name chain +:+ "_HTTP_RPC") in
  let ws_rpc_url := environ E !! (name chain +:+ "_WS_RPC") in
  if falsy http_rpc_url || falsy ws_rpc_url
  then Raise (StartupException
                ("Either http or ws rpc for " +:+ name chain +:+ " was not found"))
  else Ok {| http_rpc_url := default "" http_rpc_url;
             ws_rpc_url := default "" ws_rpc_url;
             chain := chain;
             v2_pool_address := v2_pool_address;
             v3_pool_address := v3_pool_address |}.

Definition get_relevant_accounts_with_thresholds
  : M HF (list (TrackedAccountWithHF HF)) :=
  emit EvGetAccounts ;;
  let* t := now in
  lift (to_result (relevant_accounts E t)).

Definition get_v2_health_factors (accounts_batch : list (TrackedAccountWithHF HF))
  : M HF (list HF) :=
  emit (EvGetHealthFactors "V2" accounts_batch) ;;
  let* t := now in
  lift (to_result (v2_health_factors E t accounts_batch)).

Definition get_v3_health_factors (accounts_batch : list (TrackedAccountWithHF HF))
  : M HF (list HF) :=
  emit (EvGetHealthFactors "V3" accounts_batch) ;;
  let* t := now in
  lift (to_result (v3_health_factors E t accounts_batch)).

(** [notifier.notify(account, health_factor)]. *)
Definition notifier_notify (a : TrackedAccountWithHF HF) (health_factor : HF)
  : M HF unit :=
  emit (EvNotify a health_factor) ;;
  lift (to_result (notify E a health_factor)).

(** [for batch in batches: factors += query(batch)]. *)
Fixpoint collect_health_factors
    (query : list (TrackedAccountWithHF HF) -> M HF (list HF))
    (batches : list (list (TrackedAccountWithHF HF))) (factors : list HF)
  : M HF (list HF) :=
  match batches with
  | [] => ret factors
  | batch :: rest =>
      let* answer := query batch in
      collect_health_factors query rest (factors ++ answer)
  end.

(** The last loop of [health_factor_periodic_task], over the zipped pairs. *)
Fixpoint check_thresholds (pairs : list (TrackedAccountWithHF HF * HF))
  : M HF unit :=
  match pairs with
  | [] => ret tt
  | (a, health_factor) :: rest =>
      (if py_lt health_factor (health_factor_threshold a)
       then notifier_notify a health_factor
       else ret tt) ;;
      check_thresholds rest
  end.

Definition is_version (v : string) (a : TrackedAccountWithHF HF) : bool :=
  String.eqb (aave_version (account a)) v.

Definition health_factor_periodic_task (self : t) : M HF unit :=
  let* all_accounts := get_relevant_accounts_with_thresholds in
  let v2_accounts := List.filter (is_version "V2") all_accounts in
  let v3_accounts := List.filter (is_version "V3") all_accounts in
  let* v2_batches := lift (make_batches v2_accounts HEALTH_FACTOR_BATCH_SIZE) in
  let* v2_health_factors :=
    collect_health_factors get_v2_health_factors v2_batches [] in
  let* v3_batches := lift (make_batches v3_accounts HEALTH_FACTOR_BATCH_SIZE) in
  let* v3_health_factors :=
    collect_health_factors get_v3_health_factors v3_batches [] in
  check_thresholds (combine (v2_accounts ++ v3_accounts)
                            (v2_health_factors ++ v3_health_factors)).

(** [monitor_health_factor], looked at after at most [cycles] cycles. *)
Fixpoint monitor_health_factor (self : t) (cycles : nat) (w : World HF)
  : loop_state * World HF :=
  match cycles with
  | O => (Running, w)
  | S cycles' =>
      match health_factor_periodic_task self w with
      | (Raise e, w') => (Stopped e, w')
      | (Ok _, w') =>
          monitor_health_factor self cycles' (sleep HEALTH_FACTOR_CHECK_PERIOD w')
      end
  end.

(** The body of [process_liquidation_log] is [...] in the source: the call
    is recorded, and the method does what its one statement does, nothing.
    The notification its docstring announces is not written. *)
Definition process_liquidation_log (self : t) (aave_version : string) (log : Log)
  : M HF unit :=
  emit (EvProcessLiquidationLog aave_version log).

(** [for log in logs: self.process_liquidation_log(version, log)]. *)
Fixpoint process_logs (self : t) (aave_version : string) (logs : list Log)
  : M HF unit :=
  match logs with
  | [] => ret tt
  | log :: rest =>
      process_liquidation_log self aave_version log ;;
      process_logs self aave_version rest
  end.

(** [self.web3.eth.get_logs(filter)]. *)
Definition eth_get_logs (f : LogFilter) : M HF (list Log) :=
  emit (EvGetLogs f) ;;
  lift (to_result (get_logs E f)).

Definition checkpoint_key (self : t) (version : string) : string :=
  "LAST_" +:+ name (chain self) +:+ "_" +:+ version +:+ "_CHECKED_BLOCK".

Definition v2_filter (self : t) (last_checked_block : option Z) : LogFilter :=
  {| filter_address := v2_pool_address self;
     filter_topics := [V2_LIQUIDATION_TOPIC E];
     fromBlock := last_checked_block;
     toBlock := "latest" |}.

Definition v3_filter (self : t) (last_checked_block : option Z) : LogFilter :=
  {| filter_address := v3_pool_address self;
     filter_topics := [V3_LIQUIDATION_TOPIC E];
     fromBlock := last_checked_block;
     toBlock := "latest" |}.

Definition catchup_on_liquidations (self : t) : M HF unit :=
  let* last_v2_checked_block := get_setting (checkpoint_key self "V2") in
  let* v2_logs := eth_get_logs (v2_filter self last_v2_checked_block) in
  process_logs self "V2" v2_logs ;;
  let* last_v3_checked_block := get_setting (checkpoint_key self "V3") in
  let* v3_logs := eth_get_logs (v3_filter self last_v3_checked_block) in
  process_logs self "V3" v3_logs.

(** The [if]/[elif]/[else] at the head of [monitor_liquidations]. *)
Definition select_pool (self : t) (aave_version : string)
  : result (string * string) :=
  if String.eqb aave_version "V2"
  then Ok (v2_pool_address self, V2_LIQUIDATION_TOPIC E)
  else if String.eqb aave_version "V3"
  then Ok (v3_pool_address self, V3_LIQUIDATION_TOPIC E)
  else Raise (AssertionError ("Unknown aave version " +:+ aave_version)).

(** [async with websockets.connect(url) as ws: body]: the connection is
    closed however the body is left. *)
Definition async_with_connect {A : Type} (url : string) (body : M HF A)
  : M HF A :=
  emit (EvConnect url) ;;
  lift (to_result (connect E url)) ;;
  fun w =>
    match body w with
    | (r, w') => (r, snd (emit EvClose w'))
    end.

Definition closed_message (self : t) : string :=
  "Websocket connection was closed. Liquidations monitoring is stopped for "
  +:+ name (chain self).

Definition undecodable_message (self : t) (raw_message : string) : string :=
  "Failed to decode message " +:+ raw_message +:+ " for " +:+ name (chain self).

(** The frame [ws.recv()] returned is no longer to come. *)
Definition received (rest : list string) : M HF unit :=
  fun w =>
    (Ok tt, {| settings := settings w; clock := clock w; inbox := rest;
               trace := trace w |}).

(** The [while True] loop of [monitor_liquidations], by the frames still to
    come. When none is left [ws.recv()] raises: the bare [except] logs and
    leaves the loop by [break]. Otherwise the frame is decoded: a
    [JSONDecodeError] is logged and the loop goes on by [continue]; any other
    exception of [json.loads] is not caught and leaves the loop; a decoded
    message is printed. *)
Fixpoint message_loop (self : t) (frames : list string) : M HF unit :=
  match frames with
  | [] => emit (EvLog CRITICAL (closed_message self))
  | raw_message :: rest =>
      received rest ;;
      match json_loads E raw_message with
      | JSONDecodeError =>
          emit (EvLog CRITICAL (undecodable_message self raw_message)) ;;
          message_loop self rest
      | LoadsRaises e => raise (loads_exception e)
      | Decoded decoded_message =>
          emit (EvPrint decoded_message) ;;
          message_loop self rest
      end
  end.

Definition subscribe_and_listen (self : t) (aave_version : string)
    (pool_address liquidation_topic : string) : M HF unit :=
  async_with_connect (ws_rpc_url self)
    (emit (EvSend (json_dumps E
                     (build_subscription_message pool_address liquidation_topic))) ;;
     let* raw_subscription_response := ws_recv in
     let* decoded_subscription_response :=
       match json_loads E raw_subscription_response with
       | Decoded decoded => ret decoded
       | JSONDecodeError =>
           raise (StartupException
                    ("Failed to decode subscription response "
                     +:+ raw_subscription_response +:+ " for "
                     +:+ name (chain self) +:+ " aave " +:+ aave_version))
       | LoadsRaises e => raise (loads_exception e)
       end in
     let* has_error := lift (PyIn.contains "error" decoded_subscription_response) in
     if has_error : bool
     then raise (StartupException
                   ("Failed to subscribe to liquidations for "
                    +:+ name (chain self) +:+ " aave " +:+ aave_version
                    +:+ ". Subscription response was "
                    +:+ json_str E decoded_subscription_response))
     else
       emit (EvLog INFO ("Successfully subscribed to liquidations for "
                         +:+ name (chain self) +:+ " aave " +:+ aave_version)) ;;
       fun w => message_loop self (inbox w) w).

Definition monitor_liquidations (self : t) (aave_version : string) : M HF unit :=
  match select_pool self aave_version with
  | Raise e => raise e
  | Ok (pool_address, liquidation_topic) =>
      subscribe_and_listen self aave_version pool_address liquidation_topic
  end.

End Methods.

End BaseConnector.

(** ** What the theorems speak of *)

(** The world after further calls. *)
Definition extend {HF : Type} (w : World HF) (evs : list (event HF)) : World HF :=
  {| settings := settings w; clock := clock w; inbox := inbox w;
     trace := trace w ++ evs |}.

(** What a query answered, nothing when it failed. *)
Definition answered {A : Type} (r : answer (list A)) : list A :=
  match r with
  | Returns l => l
  | Fails _ => []
  end.

Definition failed {A : Type} (r : answer A) : Prop :=
  exists reason : string, r = Fails reason.

(** The batches of a cycle for one protocol version. *)
Definition batches_of {A : Type} (accounts : list A) : list (list A) :=
  match make_batches accounts HEALTH_FACTOR_BATCH_SIZE with
  | Ok batches => batches
  | Raise _ => []
  end.

(** A query that answers every one of the batches with as many factors as
    the batch has accounts. *)
Definition faithful {A HF : Type} (query : list A -> answer (list HF))
    (batches : list (list A)) : Prop :=
  Forall (fun batch => exists factors : list HF,
            query batch = Returns factors /\ length factors = length batch)
         batches.

(** Each account with its reading: within a batch, the account at a
    position with the factor the query of that batch answered at that
    position. *)
Definition paired {A HF : Type} (query : list A -> answer (list HF))
    (batches : list (list A)) : list (A * HF) :=
  flat_map (fun batch => combine batch (answered (query batch))) batches.

(** The pairs whose factor is below the threshold of their account. *)
Definition breaches {HF : Type} `{PyLt HF}
    (pairs : list (TrackedAccountWithHF HF * HF))
  : list (TrackedAccountWithHF HF * HF) :=
  List.filter (fun p => py_lt (snd p) (health_factor_threshold (fst p))) pairs.

(** What the message loop records for one frame. *)
Definition frame_events {HF : Type} (E : Env HF) (self : BaseConnector.t)
    (raw_message : string) : list (event HF) :=
  match json_loads E raw_message with
  | JSONDecodeError =>
      [EvLog CRITICAL (BaseConnector.undecodable_message self raw_message)]
  | LoadsRaises _ => []
  | Decoded decoded_message => [EvPrint decoded_message]
  end.

(** The exception that ends the message loop, if one does: that of the first
    frame on which [json.loads] raises something else than a
    [JSONDecodeError]. *)
Fixpoint escapes {HF : Type} (E : Env HF) (frames : list string)
  : option loads_error :=
  match frames with
  | [] => None
  | raw_message :: rest =>
      match json_loads E raw_message with
      | LoadsRaises e => Some e
      | _ => escapes E rest
      end
  end.

(** The frames the loop receives: all of them up to that frame, itself
    included. *)
Fixpoint taken {HF : Type} (E : Env HF) (frames : list string) : list string :=
  match frames with
  | [] => []
  | raw_message :: rest =>
      raw_message :: match json_loads E raw_message with
                     | LoadsRaises _ => []
                     | _ => taken E rest
                     end
  end.

(** The frames the loop never receives: those after that frame. *)
Fixpoint left_over {HF : Type} (E : Env HF) (frames : list string) : list string :=
  match frames with
  | [] => []
  | raw_message :: rest =>
      match json_loads E raw_message with
      | LoadsRaises _ => rest
      | _ => left_over E rest
      end
  end.

(** How the loop ends: by [break] when the connection closes, or by the
    exception. *)
Definition loop_end {HF : Type} (E : Env HF) (frames : list string) : result unit :=
  match escapes E frames with
  | None => Ok tt
  | Some e => Raise (loads_exception e)
  end.

(** What the loop logs when it ends by [break]. *)
Definition farewell {HF : Type} (E : Env HF) (self : BaseConnector.t)
    (frames : list string) : list (event HF) :=
  match escapes E frames with
  | None => [EvLog CRITICAL (BaseConnector.closed_message self)]
  | Some _ => []
  end.

(** The messages among the frames that decode, decoded. *)
Definition decoded_messages {HF : Type} (E : Env HF) (frames : list string)
  : list Json :=
  flat_map (fun raw_message => match json_loads E raw_message with
                               | Decoded decoded_message => [decoded_message]
                               | _ => []
                               end) frames.

(** A decoded acknowledgment that has an ['error'] key. *)
Definition has_error_key (decoded : Json) : Prop :=
  exists items : list (string * Json),
    decoded = JObj items /\ In "error" (map fst items).

(** ** A small deployment to run the connector on *)

Module Demo.

#[global] Instance Z_lt : PyLt Z := Z.ltb.

Definition ETHEREUM : Chain := {| name := "ETHEREUM" |}.

Definition tracked (version who : string) (threshold : Z)
  : TrackedAccountWithHF Z :=
  {| account := {| chain := ETHEREUM; aave_version := version; address := who |};
     health_factor_threshold := threshold |}.

Definition alice : TrackedAccountWithHF Z := tracked "V2" "alice" 100.
Definition bob : TrackedAccountWithHF Z := tracked "V3" "bob" 100.
Definition carol : TrackedAccountWithHF Z := tracked "V2" "carol" 150.

(** The factor the chain holds for an account: alice and bob are below
    their threshold, carol is exactly at hers. *)
Definition factor (a : TrackedAccountWithHF Z) : Z :=
  if String.eqb (address (account a)) "carol" then 150 else 90.

Definition quote : string := String (Ascii.ascii_of_nat 34) EmptyString.

(** Five frames: an acknowledgment, a rejection, a log, noise, and an
    integer of 4301 digits. *)
Definition ack_frame : string := "{}".
Definition error_frame : string :=
  "{" +:+ quote +:+ "error" +:+ quote +:+ ":1}".
Definition log_frame : string :=
  "{" +:+ quote +:+ "blockNumber" +:+ quote +:+ ":7}".
Definition noise_frame : string := "}{".
(** [n] times the digit 1. *)
Fixpoint ones (n : nat) : string :=
  match n with
  | O => EmptyString
  | S n' => String (Ascii.ascii_of_nat 49) (ones n')
  end.
Definition digits_frame : string := ones 4301.

(** What [json.loads] raises on it. *)
Definition too_many_digits : loads_error :=
  DigitLimit ("Exceeds the limit (4300 digits) for integer string conversion: "
              +:+ "value has 4301 digits; use sys.set_int_max_str_digits() "
              +:+ "to increase the limit").

(** [json.loads] on these frames; anything else is taken not to be JSON. *)
Definition loads (raw : string) : loaded :=
  if String.eqb raw ack_frame then Decoded (JObj [])
  else if String.eqb raw error_frame then Decoded (JObj [("error", JInt 1)])
  else if String.eqb raw log_frame then Decoded (JObj [("blockNumber", JInt 7)])
  else if String.eqb raw digits_frame then LoadsRaises too_many_digits
  else JSONDecodeError.

Definition log_at (block : Z) : Log :=
  {| blockNumber := block; log_address := "0xpool2"; log_topics := ["0xtopic2"];
     log_data := "" |}.

(** The chain answers a V2 filter with two logs, at blocks 6 and 7, and any
    other filter with none. *)
Definition logs_for (f : LogFilter) : answer (list Log) :=
  if String.eqb (filter_address f) "0xpool2"
  then Returns [log_at 6; log_at 7]
  else Returns [].

Definition env : Env Z :=
  {| environ := <["ETHEREUM_HTTP_RPC" := "http://node"]>
                  (<["ETHEREUM_WS_RPC" := "ws://node"]> ∅);
     V2_LIQUIDATION_TOPIC := "0xtopic2";
     V3_LIQUIDATION_TOPIC := "0xtopic3";
     json_loads := loads;
     json_dumps := fun _ => "subscribe";
     json_str := fun _ => "response";
     relevant_accounts := fun _ => Returns [alice; bob; carol];
     v2_health_factors := fun _ batch => Returns (map factor batch);
     v3_health_factors := fun _ batch => Returns (map factor batch);
     notify := fun _ _ => Returns tt;
     get_logs := logs_for;
     connect := fun _ => Returns tt |}.

(** The same deployment with the V2 health-factor query out of order. *)
Definition env_v2_down : Env Z :=
  {| environ := environ env;
     V2_LIQUIDATION_TOPIC := V2_LIQUIDATION_TOPIC env;
     V3_LIQUIDATION_TOPIC := V3_LIQUIDATION_TOPIC env;
     json_loads := json_loads env;
     json_dumps := json_dumps env;
     json_str := json_str env;
     relevant_accounts := relevant_accounts env;
     v2_health_factors := fun _ _ => Fails "rpc down";
     v3_health_factors := v3_health_factors env;
     notify := notify env;
     get_logs := get_logs env;
     connect := connect env |}.

Definition connector : BaseConnector.t :=
  {| BaseConnector.http_rpc_url := "http://node";
     BaseConnector.ws_rpc_url := "ws://node";
     BaseConnector.chain := ETHEREUM;
     BaseConnector.v2_pool_address := "0xpool2";
     BaseConnector.v3_pool_address := "0xpool3" |}.

(** Both checkpoints at block 5, nothing done yet, and the frames the peer
    will deliver. *)
Definition world (frames : list string) : World Z :=
  {| settings := <["LAST_ETHEREUM_V2_CHECKED_BLOCK" := 5]>
                   (<["LAST_ETHEREUM_V3_CHECKED_BLOCK" := 5]> ∅);
     clock := 0;
     inbox := frames;
     trace := [] |}.

Definition other_event_at (block : Z) : Log :=
  {| blockNumber := block; log_address := "0xpool2"; log_topics := ["0xborrow"];
     log_data := "" |}.

Definition v3_log_at (block : Z) : Log :=
  {| blockNumber := block; log_address := "0xpool3"; log_topics := ["0xtopic3"];
     log_data := "" |}.

(** The logs of a chain whose head is at block 9: V2 liquidations in blocks
    3, 5, 6 and 9, another event of the V2 pool in block 6 and a V3
    liquidation in block 8. Block 5 is the one the checkpoints of [world]
    name. *)
Definition ledger : list Log :=
  [log_at 3; log_at 5; log_at 6; other_event_at 6; v3_log_at 8; log_at 9].

Definition head_block : Z := 9.

(** The same deployment on that chain. *)
Definition archive : Env Z :=
  {| environ := environ env;
     V2_LIQUIDATION_TOPIC := V2_LIQUIDATION_TOPIC env;
     V3_LIQUIDATION_TOPIC := V3_LIQUIDATION_TOPIC env;
     json_loads := json_loads env;
     json_dumps := json_dumps env;
     json_str := json_str env;
     relevant_accounts := relevant_accounts env;
     v2_health_factors := v2_health_factors env;
     v3_health_factors := v3_health_factors env;
     notify := notify env;
     get_logs := fun f => Returns (logs_in ledger head_block f);
     connect := connect env |}.

End Demo.

(** ** More to speak of *)

(** The batched health-factor queries made, in order. *)
Definition health_queries {HF : Type} (tr : list (event HF))
  : list (string * list (TrackedAccountWithHF HF)) :=
  flat_map (fun ev => match ev with
                      | EvGetHealthFactors v batch => [(v, batch)]
                      | _ => []
                      end) tr.

(** The payloads sent on the websocket, in order. *)
Definition sent {HF : Type} (tr : list (event HF)) : list string :=
  flat_map (fun ev => match ev with
                      | EvSend payload => [payload]
                      | _ => []
                      end) tr.

(** The waits, in order. *)
Definition slept {HF : Type} (tr : list (event HF)) : list Z :=
  flat_map (fun ev => match ev with
                      | EvSleep seconds => [seconds]
                      | _ => []
                      end) tr.

(** How many batches of [b] elements [n] elements make. *)
Definition batch_count (n b : nat) : nat := ((n + b - 1) / b)%nat.

(** A computation that takes every world to one related to it by [R]. *)
Definition respects {HF A : Type} (R : World HF -> World HF -> Prop)
    (m : M HF A) : Prop :=
  forall w : World HF, R w (snd (m w)).

(** What a polling cycle leaves alone: the Checkpoint store, the clock, the
    frames to come, and the records of the waits, of the historical queries,
    of the connections' traffic and of the logs handed on. *)
Definition polling_frame {HF : Type} (w w' : World HF) : Prop :=
  settings w' = settings w /\ clock w' = clock w /\ inbox w' = inbox w
  /\ slept (trace w') = slept (trace w)
  /\ queried (trace w') = queried (trace w)
  /\ sent (trace w') = sent (trace w).

(** What the Live Monitor leaves alone. *)
Definition monitor_frame {HF : Type} (w w' : World HF) : Prop :=
  settings w' = settings w /\ clock w' = clock w
  /\ notified (trace w') = notified (trace w)
  /\ slept (trace w') = slept (trace w)
  /\ queried (trace w') = queried (trace w).

(** What the Live Monitor leaves alone once the subscription is sent. *)
Definition listening_frame {HF : Type} (w w' : World HF) : Prop :=
  sent (trace w') = sent (trace w).

(** What [monitor_liquidations] does inside the [async with] block once the
    subscription is sent: the lines from the first [ws.recv()] on. *)
Definition listen {HF : Type} (E : Env HF) (self : BaseConnector.t)
    (aave_version : string) : M HF unit :=
  let* raw_subscription_response := ws_recv in
  let* decoded_subscription_response :=
    match json_loads E raw_subscription_response with
    | Decoded decoded => ret decoded
    | JSONDecodeError =>
        raise (StartupException
                 ("Failed to decode subscription response "
                  +:+ raw_subscription_response +:+ " for "
                  +:+ name (BaseConnector.chain self) +:+ " aave "
                  +:+ aave_version))
    | LoadsRaises e => raise (loads_exception e)
    end in
  let* has_error := lift (PyIn.contains "error" decoded_subscription_response) in
  if has_error : bool
  then raise (StartupException
                ("Failed to subscribe to liquidations for "
                 +:+ name (BaseConnector.chain self) +:+ " aave " +:+ aave_version
                 +:+ ". Subscription response was "
                 +:+ json_str E decoded_subscription_response))
  else
    emit (EvLog INFO ("Successfully subscribed to liquidations for "
                      +:+ name (BaseConnector.chain self)
                      +:+ " aave " +:+ aave_version)) ;;
    fun w => BaseConnector.message_loop E self (inbox w) w.

(** An acknowledgment that decodes to a scalar. *)
Definition scalar (decoded : Json) : Prop :=
  match decoded with
  | JNull | JBool _ | JInt _ | JFloat _ => True
  | JStr _ | JArr _ | JObj _ => False
  end.

(** ** The demo deployment with a collaborator out of order *)

Module Faults.

(** The demo deployment with other answers from the Registry, the two
    health-factor queries, the Notifier, the historical query and the
    websocket endpoint. *)
Definition variant
    (accounts : Z -> answer (list (TrackedAccountWithHF Z)))
    (v2 v3 : Z -> list (TrackedAccountWithHF Z) -> answer (list Z))
    (notifier : TrackedAccountWithHF Z -> Z -> answer unit)
    (logs : LogFilter -> answer (list Log))
    (endpoint : string -> answer unit) : Env Z :=
  {| environ := environ Demo.env;
     V2_LIQUIDATION_TOPIC := V2_LIQUIDATION_TOPIC Demo.env;
     V3_LIQUIDATION_TOPIC := V3_LIQUIDATION_TOPIC Demo.env;
     json_loads := json_loads Demo.env;
     json_dumps := json_dumps Demo.env;
     json_str := json_str Demo.env;
     relevant_accounts := accounts;
     v2_health_factors := v2;
     v3_health_factors := v3;
     notify := notifier;
     get_logs := logs;
     connect := endpoint |}.

(** The Registry does not answer. *)
Definition registry_down : Env Z :=
  variant (fun _ => Fails "db down") (v2_health_factors Demo.env)
    (v3_health_factors Demo.env) (notify Demo.env) (get_logs Demo.env)
    (connect Demo.env).

(** The Registry knows nobody. *)
Definition nobody : Env Z :=
  variant (fun _ => Returns []) (v2_health_factors Demo.env)
    (v3_health_factors Demo.env) (notify Demo.env) (get_logs Demo.env)
    (connect Demo.env).

(** The V2 query answers with no factor at all. *)
Definition v2_silent : Env Z :=
  variant (relevant_accounts Demo.env) (fun _ _ => Returns [])
    (v3_health_factors Demo.env) (notify Demo.env) (get_logs Demo.env)
    (connect Demo.env).

(** The Notifier fails for bob and for nobody else. *)
Definition notifier_down : Env Z :=
  variant (relevant_accounts Demo.env) (v2_health_factors Demo.env)
    (v3_health_factors Demo.env)
    (fun a _ => if String.eqb (address (account a)) "bob"
                then Fails "smtp down" else Returns tt)
    (get_logs Demo.env) (connect Demo.env).

(** No historical query is answered. *)
Definition logs_down : Env Z :=
  variant (relevant_accounts Demo.env) (v2_health_factors Demo.env)
    (v3_health_factors Demo.env) (notify Demo.env)
    (fun _ => Fails "rpc down") (connect Demo.env).

(** The V3 historical query is not answered, the V2 one is. *)
Definition v3_logs_down : Env Z :=
  variant (relevant_accounts Demo.env) (v2_health_factors Demo.env)
    (v3_health_factors Demo.env) (notify Demo.env)
    (fun f => if String.eqb (filter_address f) "0xpool2"
              then Returns [Demo.log_at 6; Demo.log_at 7]
              else Fails "rpc down")
    (connect Demo.env).

(** The websocket endpoint cannot be reached. *)
Definition unreachable : Env Z :=
  variant (relevant_accounts Demo.env) (v2_health_factors Demo.env)
    (v3_health_factors Demo.env) (notify Demo.env) (get_logs Demo.env)
    (fun _ => Fails "refused").

(** Three more frames: a number, a string that speaks of an error, and an
    object that holds an error below its top. *)
Definition number_frame : string := "7".
Definition string_frame : string :=
  Demo.quote +:+ "no error" +:+ Demo.quote.
Definition nested_frame : string :=
  "{" +:+ Demo.quote +:+ "result" +:+ Demo.quote +:+ ":{"
  +:+ Demo.quote +:+ "error" +:+ Demo.quote +:+ ":1}}".

(** [json.loads] on the frames. *)
Definition loads (raw : string) : loaded :=
  if String.eqb raw number_frame then Decoded (JInt 7)
  else if String.eqb raw string_frame then Decoded (JStr "no error")
  else if String.eqb raw nested_frame
  then Decoded (JObj [("result", JObj [("error", JInt 1)])])
  else Demo.loads raw.

(** The demo deployment, decoding these frames too. *)
Definition talkative : Env Z :=
  {| environ := environ Demo.env;
     V2_LIQUIDATION_TOPIC := V2_LIQUIDATION_TOPIC Demo.env;
     V3_LIQUIDATION_TOPIC := V3_LIQUIDATION_TOPIC Demo.env;
     json_loads := loads;
     json_dumps := json_dumps Demo.env;
     json_str := json_str Demo.env;
     relevant_accounts := relevant_accounts Demo.env;
     v2_health_factors := v2_health_factors Demo.env;
     v3_health_factors := v3_health_factors Demo.env;
     notify := notify Demo.env;
     get_logs := get_logs Demo.env;
     connect := connect Demo.env |}.

End Faults.

(** * Properties *)

(** ** [make_batches] *)

Lemma slice_window {A : Type} (l : list A) (i b : nat) :
  Py.slice l (Z.of_nat i) (Z.of_nat i + Z.of_nat b) = firstn b (skipn i l).
Proof.
  unfold Py.slice, Py.clamp.
  assert (Hi : (Z.of_nat i <? 0) = false) by (apply Z.ltb_ge; lia).
  assert (Hj : (Z.of_nat i + Z.of_nat b <? 0) = false) by (apply Z.ltb_ge; lia).
  rewrite Hi, Hj.
  destruct (Z.leb_spec (Z.of_nat (length l)) (Z.of_nat i)) as [Hle | Hlt].
  - assert (Hle' : (Z.of_nat (length l) <=? Z.of_nat i + Z.of_nat b) = true)
      by (apply Z.leb_le; lia).
    rewrite Hle', Z.sub_diag, Nat2Z.id. simpl.
    rewrite !(skipn_all2 l) by lia. by destruct b.
  - rewrite Nat2Z.id.
    destruct (Z.leb_spec (Z.of_nat (length l)) (Z.of_nat i + Z.of_nat b)).
    + replace (Z.to_nat (Z.of_nat (length l) - Z.of_nat i))
        with (length (skipn i l)) by (rewrite length_skipn; lia).
      rewrite firstn_all. symmetry. apply firstn_all2. rewrite length_skipn. lia.
    + f_equal. lia.
Qed.

Lemma windows_concat {A : Type} (b c : nat) :
  forall l : list A, (length l <= c * b)%nat -> concat (windows b c l) = l.
Proof.
  unfold windows. induction c as [| c IH]; intros l Hlen.
  - simpl in *. destruct l; [done | simpl in Hlen; lia].
  - rewrite <- cons_seq, <- seq_shift. cbn [map concat]. rewrite map_map.
    cbn [Nat.mul skipn].
    transitivity (firstn b l ++ skipn b l); [| apply firstn_skipn].
    f_equal.
    rewrite <- (IH (skipn b l)) by (rewrite length_skipn; lia).
    f_equal. apply map_ext. intros k.
    by rewrite skipn_skipn, (Nat.add_comm b).
Qed.

Lemma windows_length {A : Type} (b c : nat) (l : list A) :
  length (windows b c l) = c.
Proof. unfold windows. by rewrite length_map, length_seq. Qed.

Lemma windows_lookup {A : Type} (b c : nat) (l : list A) (k : nat) :
  (k < c)%nat -> windows b c l !! k = Some (firstn b (skipn (k * b) l)).
Proof.
  intros Hk. unfold windows. rewrite list_lookup_fmap.
  by rewrite lookup_seq_lt.
Qed.

Lemma windows_last {A : Type} (b c : nat) (l : list A) :
  List.last (windows b (S c) l) [] = firstn b (skipn (c * b) l).
Proof.
  unfold windows. rewrite seq_S, map_app. simpl. by rewrite last_last.
Qed.

(** For a positive size, [make_batches] yields the windows of that width. *)
Lemma make_batches_windows {A : Type} (l : list A) (b : nat) :
  (0 < b)%nat ->
  make_batches l (Z.of_nat b) =
    Ok (windows b (Z.to_nat (Py.range_len 0 (Z.of_nat (length l)) (Z.of_nat b))) l).
Proof.
  intros Hb. unfold make_batches, Py.range.
  assert (Hz : (Z.of_nat b =? 0) = false) by (apply Z.eqb_neq; lia).
  rewrite Hz. f_equal. unfold windows. rewrite map_map.
  apply map_ext. intros k.
  replace (0 + Z.of_nat k * Z.of_nat b) with (Z.of_nat (k * b)) by lia.
  apply slice_window.
Qed.

Lemma range_len_pos (n b : Z) :
  0 < n -> 0 < b -> Py.range_len 0 n b = (n - 1) / b + 1.
Proof.
  intros Hn Hb. unfold Py.range_len.
  assert (H1 : (0 <? b) = true) by (apply Z.ltb_lt; lia).
  assert (H2 : (0 <? n) = true) by (apply Z.ltb_lt; lia).
  rewrite H1, H2. f_equal. f_equal. lia.
Qed.

(** Claim C5 (as amended): for every non-empty list and every positive batch
    size [B], [make_batches] returns batches whose concatenation is the list
    itself, in order; every batch but the last has exactly [B] elements, and
    the last one has [len mod B] elements when that is not zero and [B]
    otherwise. *)
Theorem make_batches_partition {A : Type} (lst : list A) (B : Z) :
  lst <> [] -> 0 < B -> batches_spec lst B.
Proof.
  intros Hne HB.
  assert (Hn : 0 < Z.of_nat (length lst)) by (destruct lst; [done | simpl; lia]).
  set (n := Z.of_nat (length lst)) in *.
  set (q := (n - 1) / B).
  assert (Hq : B * q <= n - 1 < B * q + B).
  { pose proof (Z.div_mod (n - 1) B ltac:(lia)) as Hd.
    pose proof (Z.mod_pos_bound (n - 1) B HB). fold q in Hd. lia. }
  assert (Hq0 : 0 <= q) by (apply Z.div_pos; lia).
  set (b := Z.to_nat B).
  assert (Hb : Z.of_nat b = B) by (subst b; lia).
  assert (Hqb : (Z.to_nat q * b)%nat = Z.to_nat (q * B))
    by (subst b; rewrite Z2Nat.inj_mul; lia).
  assert (Hcount : Z.to_nat (Py.range_len 0 n B) = S (Z.to_nat q)).
  { rewrite range_len_pos by lia. fold q. lia. }
  assert (Hlen : length lst = Z.to_nat n) by (subst n; lia).
  exists (windows b (S (Z.to_nat q)) lst). repeat split.
  - rewrite <- Hb, make_batches_windows by lia. rewrite Hb. fold n.
    by rewrite Hcount.
  - apply windows_concat.
    replace (S (Z.to_nat q) * b)%nat with (Z.to_nat q * b + b)%nat by lia.
    rewrite Hqb. lia.
  - intros i w Hw Hi. rewrite windows_length in Hi.
    rewrite windows_lookup in Hw by lia. injection Hw as <-.
    rewrite length_firstn, length_skipn.
    assert (Hib : (i * b + b <= Z.to_nat q * b)%nat).
    { replace (i * b + b)%nat with (S i * b)%nat by lia.
      apply Nat.mul_le_mono_r. lia. }
    lia.
  - rewrite windows_last, length_firstn, length_skipn, Hqb.
    change (Z.of_nat (length lst)) with n.
    assert (Hr : n = B * q + ((n - 1) mod B + 1)).
    { pose proof (Z.div_mod (n - 1) B ltac:(lia)) as Hd. fold q in Hd. lia. }
    pose proof (Z.mod_pos_bound (n - 1) B HB) as Hrb.
    destruct (Z.eq_dec ((n - 1) mod B + 1) B) as [Hfull | Hpart].
    + assert (Hm : n mod B = 0).
      { symmetry. apply (Z.mod_unique_pos n B (q + 1) 0); lia. }
      rewrite Hm. simpl. lia.
    + assert (Hm : n mod B = (n - 1) mod B + 1).
      { symmetry. apply (Z.mod_unique_pos n B q); lia. }
      rewrite Hm.
      assert (Hnz : ((n - 1) mod B + 1 =? 0) = false) by (apply Z.eqb_neq; lia).
      rewrite Hnz. lia.
Qed.

(** The instance of [make_batches_partition] for three accounts and size 2. *)
Lemma make_batches_partition_witness :
  [1; 2; 3] <> [] /\ 0 < 2 /\ batches_spec [1; 2; 3] 2.
Proof.
  split; [discriminate |]. split; [lia |].
  apply (make_batches_partition [1; 2; 3] 2); [discriminate | lia].
Defined.

(** Claim C5 as stated fails for a batch size that is not positive: size 0
    raises [ValueError], and a negative size yields no batch at all. *)
Lemma make_batches_nonpositive_size :
  make_batches [1; 2; 3] 0 = Raise (ValueError "range() arg 3 must not be zero")
  /\ make_batches [1; 2; 3] (-1) = Ok []
  /\ ~ batches_spec [1; 2; 3] 0
  /\ ~ batches_spec [1; 2; 3] (-1).
Proof.
  split; [reflexivity |]. split; [reflexivity |]. split.
  - intros (bs & Hbs & _). discriminate Hbs.
  - intros (bs & Hbs & Hcat & _). injection Hbs as <-. discriminate Hcat.
Qed.

(** ** [BaseConnector.__init__] *)

Lemma falsy_spec (value : option string) :
  BaseConnector.falsy value = true <-> value = None \/ value = Some "".
Proof.
  destruct value as [s |]; simpl.
  - rewrite String.eqb_eq. split; [intros -> | intros [? | [= ->]]]; auto.
    discriminate.
  - split; auto.
Qed.

(** Claim C8: constructing the connector raises [StartupException] exactly
    when the HTTP endpoint or the websocket endpoint of the chain is missing
    from the environment or empty; when both are there, the construction
    succeeds and the connector holds both. *)
Theorem init_checks_endpoints {HF : Type} (E : Env HF) (c : Chain)
    (v2_pool v3_pool : string) :
  let http := environ E !! (name c +:+ "_HTTP_RPC") in
  let ws := environ E !! (name c +:+ "_WS_RPC") in
  ((exists msg, BaseConnector.__init__ E c v2_pool v3_pool
                = Raise (StartupException msg))
   <-> (http = None \/ http = Some "") \/ (ws = None \/ ws = Some ""))
  /\ (forall h s : string,
        http = Some h -> h <> "" -> ws = Some s -> s <> "" ->
        BaseConnector.__init__ E c v2_pool v3_pool
        = Ok {| BaseConnector.http_rpc_url := h;
                BaseConnector.ws_rpc_url := s;
                BaseConnector.chain := c;
                BaseConnector.v2_pool_address := v2_pool;
                BaseConnector.v3_pool_address := v3_pool |}).
Proof.
  intros http ws. unfold BaseConnector.__init__. fold http ws. split.
  - rewrite <- !falsy_spec, <- orb_true_iff.
    destruct (BaseConnector.falsy http || BaseConnector.falsy ws).
    + split; [done | eauto].
    + split; [intros [msg Hmsg]; discriminate | discriminate].
  - intros h s -> Hh -> Hs. simpl.
    apply String.eqb_neq in Hh, Hs. by rewrite Hh, Hs.
Qed.

(** [init_checks_endpoints] on the demo deployment, where both endpoints are
    configured. *)
Lemma init_checks_endpoints_witness :
  BaseConnector.__init__ Demo.env Demo.ETHEREUM "0xpool2" "0xpool3"
  = Ok Demo.connector.
Proof.
  apply (proj2 (init_checks_endpoints Demo.env Demo.ETHEREUM "0xpool2" "0xpool3"));
    [reflexivity | discriminate | reflexivity | discriminate].
Defined.

(** ** Running computations *)

(** Brings the appends of a trace to the right. *)
Ltac reassociate := repeat (rewrite <- app_assoc; cbn [app]); cbn [app].

Lemma extend_nil {HF : Type} (w : World HF) : extend w [] = w.
Proof. destruct w. unfold extend. simpl. by rewrite app_nil_r. Qed.

Lemma extend_extend {HF : Type} (w : World HF) (evs1 evs2 : list (event HF)) :
  extend (extend w evs1) evs2 = extend w (evs1 ++ evs2).
Proof. unfold extend. simpl. by rewrite app_assoc. Qed.

Lemma emit_extend {HF : Type} (ev : event HF) (w : World HF) :
  emit ev w = (Ok tt, extend w [ev]).
Proof. reflexivity. Qed.

Lemma notified_app {HF : Type} (tr1 tr2 : list (event HF)) :
  notified (tr1 ++ tr2) = notified tr1 ++ notified tr2.
Proof. apply flat_map_app. Qed.

Lemma queried_app {HF : Type} (tr1 tr2 : list (event HF)) :
  queried (tr1 ++ tr2) = queried tr1 ++ queried tr2.
Proof. apply flat_map_app. Qed.

Lemma processed_app {HF : Type} (tr1 tr2 : list (event HF)) :
  processed (tr1 ++ tr2) = processed tr1 ++ processed tr2.
Proof. apply flat_map_app. Qed.

Lemma printed_app {HF : Type} (tr1 tr2 : list (event HF)) :
  printed (tr1 ++ tr2) = printed tr1 ++ printed tr2.
Proof. apply flat_map_app. Qed.

(** ** [monitor_liquidations]: the choice of the pool *)

Lemma select_pool_V2 {HF : Type} (E : Env HF) (self : BaseConnector.t) :
  BaseConnector.select_pool E self "V2"
  = Ok (BaseConnector.v2_pool_address self, V2_LIQUIDATION_TOPIC E).
Proof. reflexivity. Qed.

Lemma select_pool_V3 {HF : Type} (E : Env HF) (self : BaseConnector.t) :
  BaseConnector.select_pool E self "V3"
  = Ok (BaseConnector.v3_pool_address self, V3_LIQUIDATION_TOPIC E).
Proof. reflexivity. Qed.

Lemma select_pool_unknown {HF : Type} (E : Env HF) (self : BaseConnector.t)
    (v : string) :
  v <> "V2" -> v <> "V3" ->
  BaseConnector.select_pool E self v
  = Raise (AssertionError ("Unknown aave version " +:+ v)).
Proof.
  intros H2 H3. unfold BaseConnector.select_pool.
  apply String.eqb_neq in H2, H3. by rewrite H2, H3.
Qed.

(** The message loop is left by [break], or by an exception of [json.loads]
    that is not a [JSONDecodeError]. *)
Lemma message_loop_end {HF : Type} (E : Env HF) (self : BaseConnector.t)
    (frames : list string) :
  forall w : World HF,
    fst (BaseConnector.message_loop E self frames w) = loop_end E frames.
Proof.
  induction frames as [| raw rest IH]; intros w; [reflexivity |].
  unfold loop_end in *. simpl. unfold bind, BaseConnector.received. simpl.
  destruct (json_loads E raw); simpl; [apply IH | apply IH | reflexivity].
Qed.

Lemma loads_exception_no_assertion (e : loads_error) (msg : string) :
  loads_exception e <> AssertionError msg.
Proof. by destruct e. Qed.

Lemma loop_end_no_assertion {HF : Type} (E : Env HF) (frames : list string)
    (msg : string) :
  loop_end E frames <> Raise (AssertionError msg).
Proof.
  unfold loop_end. destruct (escapes E frames) as [e |]; [| discriminate].
  intros [= Heq]. by apply loads_exception_no_assertion in Heq.
Qed.

(** No path through the subscription raises an [AssertionError]. *)
Lemma subscribe_and_listen_no_assertion {HF : Type} (E : Env HF)
    (self : BaseConnector.t) (v pool topic : string) (w : World HF) (msg : string) :
  fst (BaseConnector.subscribe_and_listen E self v pool topic w)
  <> Raise (AssertionError msg).
Proof.
  unfold BaseConnector.subscribe_and_listen, BaseConnector.async_with_connect.
  unfold bind, lift, raise, ret, emit, ws_recv. simpl.
  destruct (connect E (BaseConnector.ws_rpc_url self)) as [[] | reason];
    simpl; [| discriminate].
  destruct (inbox w) as [| ack rest]; simpl; [discriminate |].
  destruct (json_loads E ack) as [decoded | | e]; simpl; [| discriminate |].
  - destruct (PyIn.contains "error" decoded) as [[|] | e] eqn:Hin; simpl;
      [discriminate | |].
    + match goal with
      | |- context [BaseConnector.message_loop E self ?fs ?w0] =>
          pose proof (message_loop_end E self fs w0) as Hloop;
          destruct (BaseConnector.message_loop E self fs w0) as [r w1]
      end.
      simpl in *. rewrite Hloop. apply loop_end_no_assertion.
    + destruct decoded; simpl in Hin; try discriminate Hin;
        injection Hin as <-; discriminate.
  - intros [= Heq]. by apply loads_exception_no_assertion in Heq.
Qed.

(** Claim C10: [monitor_liquidations] raises an [AssertionError] exactly
    when its version is neither ['V2'] nor ['V3'], and then nothing has been
    done: the world is as it was, no connection opened. For ['V2'] and
    ['V3'] it goes on with the pool address and the liquidation topic of
    that version. *)
Theorem monitor_liquidations_asserts_version {HF : Type} (E : Env HF)
    (self : BaseConnector.t) (v : string) :
  ((exists (w : World HF) (msg : string),
       fst (BaseConnector.monitor_liquidations E self v w)
       = Raise (AssertionError msg))
   <-> (v <> "V2" /\ v <> "V3"))
  /\ ((v <> "V2" /\ v <> "V3") ->
      forall w : World HF,
        BaseConnector.monitor_liquidations E self v w
        = (Raise (AssertionError ("Unknown aave version " +:+ v)), w))
  /\ BaseConnector.monitor_liquidations E self "V2"
     = BaseConnector.subscribe_and_listen E self "V2"
         (BaseConnector.v2_pool_address self) (V2_LIQUIDATION_TOPIC E)
  /\ BaseConnector.monitor_liquidations E self "V3"
     = BaseConnector.subscribe_and_listen E self "V3"
         (BaseConnector.v3_pool_address self) (V3_LIQUIDATION_TOPIC E).
Proof.
  assert (Hunknown : (v <> "V2" /\ v <> "V3") ->
                     forall w : World HF,
                       BaseConnector.monitor_liquidations E self v w
                       = (Raise (AssertionError ("Unknown aave version " +:+ v)), w)).
  { intros [H2 H3] w. unfold BaseConnector.monitor_liquidations.
    by rewrite select_pool_unknown. }
  split; [split |]; [| | by repeat split].
  - intros (w & msg & Hraise). split; intros ->.
    + exact (subscribe_and_listen_no_assertion E self "V2" _ _ w msg Hraise).
    + exact (subscribe_and_listen_no_assertion E self "V3" _ _ w msg Hraise).
  - intros Hv.
    exists {| settings := ∅; clock := 0; inbox := []; trace := [] |}.
    eexists. by rewrite Hunknown.
Qed.

(** [monitor_liquidations_asserts_version] on the demo deployment, for the
    version ['V4']: the assertion fails with the frames untouched. *)
Lemma monitor_liquidations_asserts_version_witness :
  BaseConnector.monitor_liquidations Demo.env Demo.connector "V4"
    (Demo.world [Demo.ack_frame])
  = (Raise (AssertionError "Unknown aave version V4"), Demo.world [Demo.ack_frame]).
Proof.
  apply (proj1 (proj2 (monitor_liquidations_asserts_version
                         Demo.env Demo.connector "V4"))).
  split; discriminate.
Defined.

(** ** [monitor_liquidations]: the subscription and the message loop *)


(** Frames on which [json.loads] returns or raises [JSONDecodeError] are
    passed by the loop. *)
Lemma escapes_app {HF : Type} (E : Env HF) (before rest : list string) :
  Forall (fun raw => forall e, json_loads E raw <> LoadsRaises e) before ->
  escapes E (before ++ rest) = escapes E rest
  /\ taken E (before ++ rest) = before ++ taken E rest
  /\ left_over E (before ++ rest) = left_over E rest.
Proof.
  induction 1 as [| raw before Hraw _ IH]; [done |].
  destruct IH as (IH1 & IH2 & IH3). simpl.
  destruct (json_loads E raw) as [decoded | | e] eqn:Hloads;
    [| | by destruct (Hraw e)]; by rewrite IH1, IH2, IH3.
Qed.


(** The loop handles the frames one after the other, until the connection
    is closed, and then it logs and ends, or until [json.loads] raises
    something else than a [JSONDecodeError], which leaves the loop with the
    later frames not received. *)
Lemma message_loop_run {HF : Type} (E : Env HF) (self : BaseConnector.t)
    (frames : list string) :
  forall w : World HF,
    inbox w = frames ->
    BaseConnector.message_loop E self frames w
    = (loop_end E frames,
       {| settings := settings w; clock := clock w;
          inbox := left_over E frames;
          trace := trace w ++ flat_map (frame_events E self) (taken E frames)
                   ++ farewell E self frames |}).
Proof.
  induction frames as [| raw rest IH]; intros w Hw.
  - simpl. unfold emit. by rewrite Hw.
  - cbn [BaseConnector.message_loop taken left_over flat_map].
    unfold loop_end, farewell. cbn [escapes].
    unfold bind at 1. unfold BaseConnector.received at 1.
    unfold frame_events at 1.
    destruct (json_loads E raw) as [decoded | | e].
    + unfold bind, emit. rewrite IH by reflexivity. unfold loop_end, farewell.
      simpl. f_equal. f_equal. by reassociate.
    + unfold bind, emit. rewrite IH by reflexivity. unfold loop_end, farewell.
      simpl. f_equal. f_equal. by reassociate.
    + unfold raise. simpl. f_equal. f_equal. by rewrite app_nil_r.
Qed.

(** A run whose subscription is acknowledged: the connection is opened, the
    subscription sent, the acknowledgment taken, the later frames handled by
    the loop, and the connection closed however the loop ends. *)
Lemma subscribe_and_listen_run {HF : Type} (E : Env HF) (self : BaseConnector.t)
    (v pool topic : string) (w : World HF) (ack : string) (frames : list string)
    (decoded : Json) :
  connect E (BaseConnector.ws_rpc_url self) = Returns tt ->
  inbox w = ack :: frames ->
  json_loads E ack = Decoded decoded ->
  PyIn.contains "error" decoded = Ok false ->
  BaseConnector.subscribe_and_listen E self v pool topic w
  = (loop_end E frames,
     {| settings := settings w; clock := clock w; inbox := left_over E frames;
        trace := trace w
                 ++ [EvConnect (BaseConnector.ws_rpc_url self);
                     EvSend (json_dumps E (build_subscription_message pool topic));
                     EvLog INFO ("Successfully subscribed to liquidations for "
                                 +:+ name (BaseConnector.chain self)
                                 +:+ " aave " +:+ v)]
                 ++ flat_map (frame_events E self) (taken E frames)
                 ++ farewell E self frames ++ [EvClose] |}).
Proof.
  intros Hconnect Hinbox Hack Hin.
  unfold BaseConnector.subscribe_and_listen, BaseConnector.async_with_connect.
  unfold bind, lift, raise, ret, emit, ws_recv. simpl.
  rewrite Hconnect, Hinbox. simpl. rewrite Hack. simpl. rewrite Hin. simpl.
  rewrite message_loop_run by reflexivity. simpl.
  f_equal. f_equal. by reassociate.
Qed.

Lemma monitor_liquidations_valid {HF : Type} (E : Env HF)
    (self : BaseConnector.t) (v : string) :
  v = "V2" \/ v = "V3" ->
  exists pool topic : string,
    BaseConnector.monitor_liquidations E self v
    = BaseConnector.subscribe_and_listen E self v pool topic.
Proof.
  intros [-> | ->]; unfold BaseConnector.monitor_liquidations;
    rewrite ?select_pool_V2, ?select_pool_V3; eauto.
Qed.

(** What the loop prints: the messages among the frames that decode. *)
Lemma printed_frame_events {HF : Type} (E : Env HF) (self : BaseConnector.t)
    (frames : list string) :
  printed (flat_map (frame_events E self) frames) = decoded_messages E frames.
Proof.
  induction frames as [| raw rest IH]; [reflexivity |].
  cbn [flat_map decoded_messages]. rewrite printed_app, IH.
  unfold frame_events, decoded_messages. simpl.
  by destruct (json_loads E raw).
Qed.


Lemma decoded_messages_app {HF : Type} (E : Env HF) (l1 l2 : list string) :
  decoded_messages E (l1 ++ l2) = decoded_messages E l1 ++ decoded_messages E l2.
Proof. apply flat_map_app. Qed.

Lemma contains_error_key (decoded : Json) :
  has_error_key decoded -> PyIn.contains "error" decoded = Ok true.
Proof.
  intros (items & -> & Hkey). simpl. f_equal.
  apply existsb_exists. apply in_map_iff in Hkey as ([k j] & Hk & Hin).
  exists (k, j). split; [done |]. simpl in *. subst k. apply String.eqb_refl.
Qed.




(** Claim C7 fails on the code: a pushed message is logged and skipped only
    when [json.loads] raises [JSONDecodeError] on it. When it raises
    something else (the [ValueError] of an integer of more than 4300 digits,
    a [RecursionError], a [UnicodeDecodeError]), nothing is logged for the
    message, the exception leaves the loop and [monitor_liquidations], and
    the messages after it, decodable or not, are never received. *)
Theorem monitor_liquidations_stops_on_other_exception {HF : Type} (E : Env HF)
    (self : BaseConnector.t) (v : string) (w : World HF) (ack bad : string)
    (before after : list string) (decoded : Json) (e : loads_error) :
  v = "V2" \/ v = "V3" ->
  connect E (BaseConnector.ws_rpc_url self) = Returns tt ->
  inbox w = ack :: before ++ bad :: after ->
  json_loads E ack = Decoded decoded ->
  PyIn.contains "error" decoded = Ok false ->
  Forall (fun raw => forall e', json_loads E raw <> LoadsRaises e') before ->
  json_loads E bad = LoadsRaises e ->
  exists (w' : World HF) (payload success : string),
    BaseConnector.monitor_liquidations E self v w
    = (Raise (loads_exception e), w')
    /\ trace w'
       = trace w
         ++ [EvConnect (BaseConnector.ws_rpc_url self); EvSend payload;
             EvLog INFO success]
         ++ flat_map (frame_events E self) before ++ [EvClose]
    /\ printed (trace w') = printed (trace w) ++ decoded_messages E before
    /\ inbox w' = after.
Proof.
  intros Hv Hconnect Hinbox Hack Hin Hbefore Hbad.
  destruct (monitor_liquidations_valid E self v Hv) as (pool & topic & ->).
  rewrite (subscribe_and_listen_run E self v pool topic w ack
             (before ++ bad :: after) decoded) by assumption.
  destruct (escapes_app E before (bad :: after) Hbefore) as (Hesc & Htaken & Hleft).
  unfold loop_end, farewell. rewrite Hesc, Htaken, Hleft.
  cbn [escapes taken left_over]. rewrite Hbad.
  eexists. eexists. eexists. split; [reflexivity |]. cbn [trace inbox].
  split; [| split; [| reflexivity]].
  - rewrite flat_map_app. cbn [flat_map]. unfold frame_events at 2.
    rewrite Hbad, !app_nil_r. reflexivity.
  - rewrite !printed_app, printed_frame_events, decoded_messages_app.
    cbn [decoded_messages flat_map]. rewrite Hbad. simpl.
    by rewrite !app_nil_r.
Qed.

(** [monitor_liquidations_stops_on_other_exception] on the demo deployment:
    after the acknowledgment the peer pushes an integer of 4301 digits and
    then a log. [ValueError] ends the run, nothing is logged for the first
    message, and the log stays unreceived and unprinted. *)
Lemma monitor_liquidations_stops_on_other_exception_witness :
  String.length Demo.digits_frame = 4301%nat
  /\ (exists msg : string, loads_exception Demo.too_many_digits = ValueError msg)
  /\ exists (w' : World Z) (payload success : string),
       BaseConnector.monitor_liquidations Demo.env Demo.connector "V2"
         (Demo.world [Demo.ack_frame; Demo.digits_frame; Demo.log_frame])
       = (Raise (loads_exception Demo.too_many_digits), w')
       /\ trace w'
          = [EvConnect "ws://node"; EvSend payload; EvLog INFO success; EvClose]
       /\ printed (trace w') = []
       /\ inbox w' = [Demo.log_frame].
Proof.
  split; [by vm_compute |]. split; [by eexists |].
  apply (monitor_liquidations_stops_on_other_exception Demo.env Demo.connector
           "V2" (Demo.world [Demo.ack_frame; Demo.digits_frame; Demo.log_frame])
           Demo.ack_frame Demo.digits_frame [] [Demo.log_frame] (JObj [])
           Demo.too_many_digits);
    [by left | reflexivity | reflexivity | reflexivity | reflexivity
     | constructor | by vm_compute].
Defined.

(** Claim C9: when the acknowledgment of the subscription decodes to an
    object with an ['error'] key, [monitor_liquidations] raises
    [StartupException]; the connection is closed, the success is not logged
    and no further frame is taken. *)
Theorem monitor_liquidations_rejected {HF : Type} (E : Env HF)
    (self : BaseConnector.t) (v : string) (w : World HF) (ack : string)
    (frames : list string) (decoded : Json) :
  v = "V2" \/ v = "V3" ->
  connect E (BaseConnector.ws_rpc_url self) = Returns tt ->
  inbox w = ack :: frames ->
  json_loads E ack = Decoded decoded ->
  has_error_key decoded ->
  exists (msg payload : string),
    BaseConnector.monitor_liquidations E self v w
    = (Raise (StartupException msg),
       {| settings := settings w; clock := clock w; inbox := frames;
          trace := trace w ++ [EvConnect (BaseConnector.ws_rpc_url self);
                               EvSend payload; EvClose] |}).
Proof.
  intros Hv Hconnect Hinbox Hack Herr.
  apply contains_error_key in Herr.
  destruct Hv as [-> | ->]; unfold BaseConnector.monitor_liquidations;
    [rewrite select_pool_V2 | rewrite select_pool_V3];
    unfold BaseConnector.subscribe_and_listen, BaseConnector.async_with_connect;
    unfold bind, lift, raise, ret, emit, ws_recv; simpl;
    rewrite Hconnect, Hinbox; simpl; rewrite Hack; simpl; rewrite Herr; simpl;
    eexists; eexists; f_equal; f_equal; by reassociate.
Qed.

(** [monitor_liquidations_rejected] on the demo deployment: the peer answers
    the subscription with an error. *)
Lemma monitor_liquidations_rejected_witness :
  exists (msg payload : string),
    BaseConnector.monitor_liquidations Demo.env Demo.connector "V2"
      (Demo.world [Demo.error_frame; Demo.log_frame])
    = (Raise (StartupException msg),
       {| settings := settings (Demo.world []); clock := 0;
          inbox := [Demo.log_frame];
          trace := [EvConnect "ws://node"; EvSend payload; EvClose] |}).
Proof.
  apply (monitor_liquidations_rejected Demo.env Demo.connector "V2"
           (Demo.world [Demo.error_frame; Demo.log_frame])
           Demo.error_frame [Demo.log_frame] (JObj [("error", JInt 1)]));
    [by left | reflexivity | reflexivity | reflexivity |].
  exists [("error", JInt 1)]. split; [reflexivity | by left].
Defined.

(** ** [catchup_on_liquidations] *)

Lemma process_logs_run {HF : Type} (self : BaseConnector.t)
    (v : string) (logs : list Log) :
  forall w : World HF,
    BaseConnector.process_logs self v logs w
    = (Ok tt, extend w (map (EvProcessLiquidationLog v) logs)).
Proof.
  induction logs as [| log rest IH]; intros w.
  - simpl. unfold ret. by rewrite extend_nil.
  - simpl. unfold bind, BaseConnector.process_liquidation_log.
    rewrite emit_extend, IH, extend_extend. reflexivity.
Qed.

Lemma processed_forwarded {HF : Type} (v : string) (logs : list Log) :
  processed (map (@EvProcessLiquidationLog HF v) logs) = map (pair v) logs.
Proof. induction logs as [| log rest IH]; [done | simpl; by rewrite IH]. Qed.

Lemma queried_forwarded {HF : Type} (v : string) (logs : list Log) :
  queried (map (@EvProcessLiquidationLog HF v) logs) = [].
Proof. induction logs as [| log rest IH]; [done | simpl; by rewrite IH]. Qed.

(** A pass whose two queries are answered. *)
Lemma catchup_run {HF : Type} (E : Env HF) (self : BaseConnector.t)
    (w : World HF) (v2_logs v3_logs : list Log) :
  let f2 := BaseConnector.v2_filter E self
              (settings w !! BaseConnector.checkpoint_key self "V2") in
  let f3 := BaseConnector.v3_filter E self
              (settings w !! BaseConnector.checkpoint_key self "V3") in
  get_logs E f2 = Returns v2_logs ->
  get_logs E f3 = Returns v3_logs ->
  BaseConnector.catchup_on_liquidations E self w
  = (Ok tt,
     extend w ([EvGetLogs f2] ++ map (EvProcessLiquidationLog "V2") v2_logs
               ++ [EvGetLogs f3] ++ map (EvProcessLiquidationLog "V3") v3_logs)).
Proof.
  intros f2 f3 H2 H3. unfold BaseConnector.catchup_on_liquidations.
  unfold bind at 1. unfold get_setting at 1. fold f2.
  unfold bind at 1. unfold BaseConnector.eth_get_logs at 1.
  unfold bind at 1. rewrite emit_extend. unfold lift at 1. rewrite H2.
  cbn [to_result]. unfold bind at 1. rewrite process_logs_run.
  unfold bind at 1. unfold get_setting at 1. cbn [settings extend]. fold f3.
  unfold bind at 1. unfold BaseConnector.eth_get_logs at 1.
  unfold bind at 1. rewrite emit_extend. unfold lift at 1. rewrite H3.
  cbn [to_result]. rewrite process_logs_run, !extend_extend.
  reflexivity.
Qed.

(** Whatever the chain answers, a pass leaves the Checkpoint store alone. *)
Lemma catchup_settings {HF : Type} (E : Env HF) (self : BaseConnector.t)
    (w : World HF) :
  settings (snd (BaseConnector.catchup_on_liquidations E self w)) = settings w.
Proof.
  unfold BaseConnector.catchup_on_liquidations.
  unfold bind at 1. unfold get_setting at 1.
  unfold bind at 1. unfold BaseConnector.eth_get_logs at 1.
  unfold bind at 1. rewrite emit_extend. unfold lift at 1.
  destruct (get_logs E _) as [v2_logs | reason]; cbn [to_result]; [| done].
  unfold bind at 1. rewrite process_logs_run.
  unfold bind at 1. unfold get_setting at 1.
  unfold bind at 1. unfold BaseConnector.eth_get_logs at 1.
  unfold bind at 1. rewrite emit_extend. unfold lift at 1.
  destruct (get_logs E _) as [v3_logs | reason]; cbn [to_result]; [| done].
  by rewrite process_logs_run.
Qed.

(** Claim C1 (as amended): a pass of the Reconciler hands every log its two
    historical queries returned to [process_liquidation_log], those of V2
    then those of V3, each in the order returned, and never writes the
    Checkpoint: the store is after the pass what it was before, whether the
    queries were answered or not. *)
Theorem catchup_forwards_and_keeps_checkpoint {HF : Type} (E : Env HF)
    (self : BaseConnector.t) (w : World HF) :
  settings (snd (BaseConnector.catchup_on_liquidations E self w)) = settings w
  /\ forall v2_logs v3_logs : list Log,
       get_logs E (BaseConnector.v2_filter E self
                     (settings w !! BaseConnector.checkpoint_key self "V2"))
       = Returns v2_logs ->
       get_logs E (BaseConnector.v3_filter E self
                     (settings w !! BaseConnector.checkpoint_key self "V3"))
       = Returns v3_logs ->
       fst (BaseConnector.catchup_on_liquidations E self w) = Ok tt
       /\ processed (trace (snd (BaseConnector.catchup_on_liquidations E self w)))
          = processed (trace w)
            ++ map (pair "V2") v2_logs ++ map (pair "V3") v3_logs.
Proof.
  split; [apply catchup_settings |].
  intros v2_logs v3_logs H2 H3.
  rewrite (catchup_run E self w v2_logs v3_logs H2 H3).
  split; [reflexivity |]. cbn [snd trace extend].
  rewrite !processed_app, !processed_forwarded. simpl.
  by rewrite ?app_nil_r.
Qed.

(** [catchup_forwards_and_keeps_checkpoint] on the demo deployment: two V2
    logs, at blocks 6 and 7, and no V3 log. *)
Lemma catchup_forwards_and_keeps_checkpoint_witness :
  fst (BaseConnector.catchup_on_liquidations Demo.env Demo.connector
         (Demo.world []))
  = Ok tt
  /\ processed (trace (snd (BaseConnector.catchup_on_liquidations
                              Demo.env Demo.connector (Demo.world []))))
     = [("V2", Demo.log_at 6); ("V2", Demo.log_at 7)].
Proof.
  apply (proj2 (catchup_forwards_and_keeps_checkpoint
                  Demo.env Demo.connector (Demo.world []))
           [Demo.log_at 6; Demo.log_at 7] []);
    reflexivity.
Defined.

(** Claim C1 as stated fails: the V2 checkpoint is 5, the pass processes the
    logs of blocks 6 and 7 without a fault, and the checkpoint is still 5. *)
Lemma catchup_does_not_advance_checkpoint :
  let run := BaseConnector.catchup_on_liquidations Demo.env Demo.connector
               (Demo.world []) in
  fst run = Ok tt
  /\ processed (trace (snd run)) = [("V2", Demo.log_at 6); ("V2", Demo.log_at 7)]
  /\ settings (Demo.world []) !! "LAST_ETHEREUM_V2_CHECKED_BLOCK" = Some 5
  /\ settings (snd run) !! "LAST_ETHEREUM_V2_CHECKED_BLOCK" = Some 5
  /\ settings (snd run) !! "LAST_ETHEREUM_V2_CHECKED_BLOCK" <> Some 7.
Proof. by vm_compute. Qed.

(** The queries a pass issues when its V2 query is answered. *)
Lemma catchup_queried {HF : Type} (E : Env HF) (self : BaseConnector.t)
    (w : World HF) (v2_logs : list Log) :
  let f2 := BaseConnector.v2_filter E self
              (settings w !! BaseConnector.checkpoint_key self "V2") in
  let f3 := BaseConnector.v3_filter E self
              (settings w !! BaseConnector.checkpoint_key self "V3") in
  get_logs E f2 = Returns v2_logs ->
  queried (trace (snd (BaseConnector.catchup_on_liquidations E self w)))
  = queried (trace w) ++ [f2; f3].
Proof.
  intros f2 f3 H2.
  destruct (get_logs E f3) as [v3_logs | reason] eqn:H3.
  - rewrite (catchup_run E self w v2_logs v3_logs H2 H3).
    cbn [snd trace extend].
    rewrite !queried_app, !queried_forwarded. simpl.
    rewrite ?app_nil_r. by reassociate.
  - unfold BaseConnector.catchup_on_liquidations.
    unfold bind at 1. unfold get_setting at 1.
    unfold bind at 1. unfold BaseConnector.eth_get_logs at 1.
    unfold bind at 1. rewrite emit_extend. unfold lift at 1.
    fold f2. rewrite H2. cbn [to_result]. unfold bind at 1.
    rewrite process_logs_run.
    unfold bind at 1. unfold get_setting at 1. cbn [settings extend].
    unfold bind at 1. unfold BaseConnector.eth_get_logs at 1.
    unfold bind at 1. rewrite emit_extend. unfold lift at 1.
    fold f3. rewrite H3. cbn [to_result snd trace extend].
    rewrite !queried_app, !queried_forwarded. simpl.
    rewrite ?app_nil_r. by reassociate.
Qed.

(** What a chain answers to a filter of one topic that goes from a block to
    ['latest']. *)
Lemma logs_in_emitted (ledger : list Log) (latest first : Z)
    (pool_address topic : string) :
  logs_in ledger latest
    {| filter_address := pool_address; filter_topics := [topic];
       fromBlock := Some first; toBlock := "latest" |}
  = emitted ledger pool_address topic first latest.
Proof.
  unfold logs_in, emitted, in_range. cbn [filter_address filter_topics fromBlock toBlock].
  induction ledger as [| log rest IH]; [reflexivity |].
  cbn [List.filter]. rewrite IH.
  replace (topics_match [topic] (log_topics log))
    with (match log_topics log with
          | signature :: _ => String.eqb signature topic
          | [] => false
          end)
    by (destruct (log_topics log); simpl; by rewrite ?andb_true_r).
  change (String.eqb "latest" "latest") with true. cbn [andb].
  by rewrite !andb_assoc.
Qed.

(** Claim C6 (as amended): a pass of the Reconciler whose V2 query is
    answered issues one historical query per protocol version, on the pool
    address and the liquidation topic of the version, from the stored
    checkpoint to ['latest']. When the chain answers the two queries with its
    logs of these ranges, the pass hands on, once each and in the order of
    the chain, the liquidation logs of the pool of each version in the blocks
    from the checkpoint of the version to the head, both included: no block
    from the checkpoint on is skipped. *)
Theorem catchup_queries_from_checkpoint {HF : Type} (E : Env HF)
    (self : BaseConnector.t) (w : World HF) (v2_logs : list Log)
    (checkpoint2 checkpoint3 : Z) :
  let f2 := {| filter_address := BaseConnector.v2_pool_address self;
               filter_topics := [V2_LIQUIDATION_TOPIC E];
               fromBlock := Some checkpoint2;
               toBlock := "latest" |} in
  let f3 := {| filter_address := BaseConnector.v3_pool_address self;
               filter_topics := [V3_LIQUIDATION_TOPIC E];
               fromBlock := Some checkpoint3;
               toBlock := "latest" |} in
  let run := BaseConnector.catchup_on_liquidations E self w in
  settings w !! BaseConnector.checkpoint_key self "V2" = Some checkpoint2 ->
  settings w !! BaseConnector.checkpoint_key self "V3" = Some checkpoint3 ->
  get_logs E f2 = Returns v2_logs ->
  queried (trace (snd run)) = queried (trace w) ++ [f2; f3]
  /\ forall (ledger : list Log) (latest : Z),
       v2_logs = logs_in ledger latest f2 ->
       get_logs E f3 = Returns (logs_in ledger latest f3) ->
       fst run = Ok tt
       /\ processed (trace (snd run))
          = processed (trace w)
            ++ map (pair "V2")
                 (emitted ledger (BaseConnector.v2_pool_address self)
                    (V2_LIQUIDATION_TOPIC E) checkpoint2 latest)
            ++ map (pair "V3")
                 (emitted ledger (BaseConnector.v3_pool_address self)
                    (V3_LIQUIDATION_TOPIC E) checkpoint3 latest).
Proof.
  intros f2 f3 run Hc2 Hc3 H2.
  assert (Hf2 : BaseConnector.v2_filter E self
                  (settings w !! BaseConnector.checkpoint_key self "V2") = f2)
    by (unfold BaseConnector.v2_filter; by rewrite Hc2).
  assert (Hf3 : BaseConnector.v3_filter E self
                  (settings w !! BaseConnector.checkpoint_key self "V3") = f3)
    by (unfold BaseConnector.v3_filter; by rewrite Hc3).
  split.
  - subst run. rewrite (catchup_queried E self w v2_logs), Hf2, Hf3; [done |].
    by rewrite Hf2.
  - intros ledger latest Hlogs2 H3. subst run.
    rewrite (catchup_run E self w v2_logs (logs_in ledger latest f3));
      [| by rewrite Hf2 | by rewrite Hf3].
    split; [reflexivity |]. cbn [snd trace extend].
    rewrite !processed_app, !processed_forwarded, Hlogs2. simpl.
    rewrite ?app_nil_r. unfold f2, f3. by rewrite !logs_in_emitted.
Qed.

(** [catchup_queries_from_checkpoint] on the demo chain, whose head is at
    block 9, with both checkpoints at block 5: the liquidations of blocks 5,
    6 and 9 on the V2 pool and of block 8 on the V3 pool are handed on; the
    liquidation of block 3 and the other event of block 6 are not. *)
Lemma catchup_queries_from_checkpoint_witness :
  queried (trace (snd (BaseConnector.catchup_on_liquidations
                         Demo.archive Demo.connector (Demo.world []))))
  = [ {| filter_address := "0xpool2"; filter_topics := ["0xtopic2"];
         fromBlock := Some 5; toBlock := "latest" |};
      {| filter_address := "0xpool3"; filter_topics := ["0xtopic3"];
         fromBlock := Some 5; toBlock := "latest" |} ]
  /\ fst (BaseConnector.catchup_on_liquidations
            Demo.archive Demo.connector (Demo.world [])) = Ok tt
  /\ processed (trace (snd (BaseConnector.catchup_on_liquidations
                              Demo.archive Demo.connector (Demo.world []))))
     = [("V2", Demo.log_at 5); ("V2", Demo.log_at 6); ("V2", Demo.log_at 9);
        ("V3", Demo.v3_log_at 8)].
Proof.
  destruct (catchup_queries_from_checkpoint Demo.archive Demo.connector
              (Demo.world []) [Demo.log_at 5; Demo.log_at 6; Demo.log_at 9] 5 5
              eq_refl eq_refl eq_refl) as [Hqueried Hprocessed].
  split; [exact Hqueried |].
  exact (Hprocessed Demo.ledger Demo.head_block eq_refl eq_refl).
Defined.

(** Claim C6 as stated fails: the V2 checkpoint names block 5 as the last
    block checked, the query of the pass starts at block 5 itself, and the
    liquidation that the chain holds in block 5 is handed on again. *)
Lemma catchup_repeats_checkpoint_block :
  let run := BaseConnector.catchup_on_liquidations Demo.archive Demo.connector
               (Demo.world []) in
  settings (Demo.world []) !! "LAST_ETHEREUM_V2_CHECKED_BLOCK" = Some 5
  /\ blockNumber (Demo.log_at 5) = 5
  /\ fst run = Ok tt
  /\ map fromBlock (queried (trace (snd run))) = [Some 5; Some 5]
  /\ processed (trace (snd run))
     = [("V2", Demo.log_at 5); ("V2", Demo.log_at 6); ("V2", Demo.log_at 9);
        ("V3", Demo.v3_log_at 8)].
Proof. by vm_compute. Qed.

(** ** [health_factor_periodic_task] and [monitor_health_factor] *)

Lemma range_len_covers (n b : nat) :
  (0 < b)%nat ->
  (n <= Z.to_nat (Py.range_len 0 (Z.of_nat n) (Z.of_nat b)) * b)%nat.
Proof.
  intros Hb. destruct n as [| n]; [lia |].
  rewrite range_len_pos by lia.
  set (q := (Z.of_nat (S n) - 1) / Z.of_nat b).
  assert (Hq0 : 0 <= q) by (apply Z.div_pos; lia).
  assert (Hq : Z.of_nat (S n) - 1 < Z.of_nat b * q + Z.of_nat b).
  { pose proof (Z.div_mod (Z.of_nat (S n) - 1) (Z.of_nat b) ltac:(lia)) as Hd.
    pose proof (Z.mod_pos_bound (Z.of_nat (S n) - 1) (Z.of_nat b) ltac:(lia)).
    fold q in Hd. lia. }
  replace (Z.to_nat (q + 1)) with (S (Z.to_nat q)) by lia.
  assert (Hqb : (Z.to_nat q * b)%nat = Z.to_nat (q * Z.of_nat b))
    by (rewrite Z2Nat.inj_mul, Nat2Z.id; lia).
  simpl. rewrite Hqb. lia.
Qed.

(** The batches of a cycle always exist, and put end to end they are the
    accounts. *)
Lemma batches_of_spec {A : Type} (accounts : list A) :
  make_batches accounts HEALTH_FACTOR_BATCH_SIZE = Ok (batches_of accounts)
  /\ concat (batches_of accounts) = accounts.
Proof.
  unfold batches_of.
  change HEALTH_FACTOR_BATCH_SIZE with (Z.of_nat 100).
  rewrite make_batches_windows by lia. split; [reflexivity |].
  apply windows_concat, range_len_covers. lia.
Qed.

Lemma combine_app_same {A B : Type} (l1 l2 : list A) (r1 r2 : list B) :
  length l1 = length r1 ->
  combine (l1 ++ l2) (r1 ++ r2) = combine l1 r1 ++ combine l2 r2.
Proof.
  revert r1. induction l1 as [| x l1 IH]; intros [| y r1] Hlen;
    simpl in *; try discriminate; [done |].
  f_equal. apply IH. lia.
Qed.

(** Zipping the accounts with the factors collected batch after batch pairs
    each account with the factor its own batch was answered at its place. *)
Lemma combine_batches {A HF : Type} (query : list A -> answer (list HF))
    (batches : list (list A)) :
  faithful query batches ->
  length (flat_map (fun b => answered (query b)) batches) = length (concat batches)
  /\ combine (concat batches) (flat_map (fun b => answered (query b)) batches)
     = paired query batches.
Proof.
  unfold faithful, paired.
  induction 1 as [| batch rest (factors & Hq & Hlen) _ [IHlen IH]];
    [done |].
  cbn [concat flat_map]. rewrite Hq. cbn [answered]. split.
  - rewrite !length_app. lia.
  - rewrite combine_app_same by done. by rewrite IH.
Qed.

Lemma paired_accounts {A HF : Type} (query : list A -> answer (list HF))
    (batches : list (list A)) :
  faithful query batches ->
  map fst (paired query batches) = concat batches.
Proof.
  intros Hq. destruct (combine_batches query batches Hq) as [Hlen <-].
  revert Hlen. generalize (flat_map (fun b => answered (query b)) batches).
  generalize (concat batches).
  induction l as [| x l IH]; intros [| y r] Hlen; simpl in *;
    try discriminate; [done |].
  f_equal. apply IH. lia.
Qed.

Section Collect.

Context {HF : Type} (version : string).
Context (ask : list (TrackedAccountWithHF HF) -> M HF (list HF)).
Context (query : Z -> list (TrackedAccountWithHF HF) -> answer (list HF)).

(** [ask] is the method that records the call and gives what [query]
    answers at the time of the call. *)
Hypothesis ask_spec :
  forall batch w,
    ask batch w
    = (to_result (query (clock w) batch),
       extend w [EvGetHealthFactors version batch]).

Lemma collect_returns (batches : list (list (TrackedAccountWithHF HF))) :
  forall (factors : list HF) (w : World HF),
    Forall (fun b => exists r, query (clock w) b = Returns r) batches ->
    BaseConnector.collect_health_factors ask batches factors w
    = (Ok (factors ++ flat_map (fun b => answered (query (clock w) b)) batches),
       extend w (map (EvGetHealthFactors version) batches)).
Proof.
  induction batches as [| batch rest IH]; intros factors w Hall.
  - simpl. unfold ret. by rewrite extend_nil, app_nil_r.
  - inversion Hall as [| ? ? (r & Hr) Hrest]; subst.
    cbn [BaseConnector.collect_health_factors]. unfold bind.
    rewrite ask_spec, Hr. cbn [to_result].
    rewrite IH by exact Hrest. cbn [clock extend flat_map].
    rewrite Hr, extend_extend. cbn [answered]. by rewrite app_assoc.
Qed.

Lemma collect_raises (batches : list (list (TrackedAccountWithHF HF))) :
  forall (factors : list HF) (w : World HF),
    Exists (fun b => failed (query (clock w) b)) batches ->
    exists (reason : string) (evs : list (event HF)),
      BaseConnector.collect_health_factors ask batches factors w
      = (Raise (ExternalError reason), extend w evs)
      /\ notified evs = [].
Proof.
  induction batches as [| batch rest IH]; intros factors w Hex.
  - inversion Hex.
  - cbn [BaseConnector.collect_health_factors]. unfold bind.
    rewrite ask_spec.
    destruct (query (clock w) batch) as [r | reason] eqn:Hq; cbn [to_result].
    + assert (Hrest : Exists (fun b => failed (query (clock w) b)) rest).
      { inversion Hex as [? ? (reason & Hfail) | ? ? Hrest]; subst;
          [congruence | exact Hrest]. }
      destruct (IH (factors ++ r) (extend w [EvGetHealthFactors version batch])
                  Hrest) as (reason & evs & -> & Hevs).
      exists reason, ([EvGetHealthFactors version batch] ++ evs).
      rewrite extend_extend. split; [reflexivity |].
      by rewrite notified_app, Hevs.
    + exists reason, [EvGetHealthFactors version batch]. by split.
Qed.

End Collect.

Lemma notified_queries {HF : Type} (version : string)
    (batches : list (list (TrackedAccountWithHF HF))) :
  notified (map (EvGetHealthFactors version) batches) = [].
Proof. induction batches as [| b rest IH]; [done | simpl; by rewrite IH]. Qed.

Lemma notified_alerts {HF : Type} (pairs : list (TrackedAccountWithHF HF * HF)) :
  notified (map (fun p => EvNotify (fst p) (snd p)) pairs) = pairs.
Proof.
  induction pairs as [| [a h] rest IH]; [done | simpl; by rewrite IH].
Qed.

(** With a Notifier that returns, the last loop notifies the breaches, in
    order, once each. *)
Lemma check_thresholds_run {HF : Type} `{PyLt HF} (E : Env HF)
    (pairs : list (TrackedAccountWithHF HF * HF)) :
  (forall a h, notify E a h = Returns tt) ->
  forall w : World HF,
    BaseConnector.check_thresholds E pairs w
    = (Ok tt, extend w (map (fun p => EvNotify (fst p) (snd p)) (breaches pairs))).
Proof.
  intros Hnotify. induction pairs as [| [a h] rest IH]; intros w.
  - simpl. unfold ret. by rewrite extend_nil.
  - cbn [BaseConnector.check_thresholds breaches List.filter fst snd].
    unfold bind at 1.
    destruct (py_lt h (health_factor_threshold a)).
    + unfold BaseConnector.notifier_notify, bind, lift.
      rewrite emit_extend, Hnotify. cbn [to_result].
      fold (breaches rest). rewrite IH, extend_extend. reflexivity.
    + unfold ret. fold (breaches rest). apply IH.
Qed.

Lemma get_v2_health_factors_spec {HF : Type} (E : Env HF)
    (batch : list (TrackedAccountWithHF HF)) (w : World HF) :
  BaseConnector.get_v2_health_factors E batch w
  = (to_result (v2_health_factors E (clock w) batch),
     extend w [EvGetHealthFactors "V2" batch]).
Proof. reflexivity. Qed.

Lemma get_v3_health_factors_spec {HF : Type} (E : Env HF)
    (batch : list (TrackedAccountWithHF HF)) (w : World HF) :
  BaseConnector.get_v3_health_factors E batch w
  = (to_result (v3_health_factors E (clock w) batch),
     extend w [EvGetHealthFactors "V3" batch]).
Proof. reflexivity. Qed.

(** The task up to the queries: once the Registry has answered, it is the V2
    collection, the V3 collection and the last loop, in that order. *)
Lemma health_factor_periodic_task_unfold {HF : Type} `{PyLt HF} (E : Env HF)
    (self : BaseConnector.t) (w : World HF)
    (all_accounts : list (TrackedAccountWithHF HF)) :
  relevant_accounts E (clock w) = Returns all_accounts ->
  let v2_accounts := List.filter (BaseConnector.is_version "V2") all_accounts in
  let v3_accounts := List.filter (BaseConnector.is_version "V3") all_accounts in
  BaseConnector.health_factor_periodic_task E self w
  = (let* v2_health_factors :=
       BaseConnector.collect_health_factors
         (BaseConnector.get_v2_health_factors E) (batches_of v2_accounts) [] in
     let* v3_health_factors :=
       BaseConnector.collect_health_factors
         (BaseConnector.get_v3_health_factors E) (batches_of v3_accounts) [] in
     BaseConnector.check_thresholds E
       (combine (v2_accounts ++ v3_accounts)
                (v2_health_factors ++ v3_health_factors)))
      (extend w [EvGetAccounts]).
Proof.
  intros Hacc v2_accounts v3_accounts.
  unfold BaseConnector.health_factor_periodic_task.
  unfold bind at 1. unfold BaseConnector.get_relevant_accounts_with_thresholds.
  unfold bind at 1. rewrite emit_extend. unfold bind at 1. unfold now at 1.
  cbn [clock extend]. unfold lift at 1. rewrite Hacc. cbn [to_result].
  fold v2_accounts v3_accounts.
  unfold bind at 1. unfold lift at 1.
  rewrite (proj1 (batches_of_spec v2_accounts)).
  unfold bind at 1. unfold bind at 3.
  destruct (BaseConnector.collect_health_factors _ _ _ _) as [[f2 | e] w2];
    [| reflexivity].
  unfold bind at 1. unfold lift at 1.
  by rewrite (proj1 (batches_of_spec v3_accounts)).
Qed.

Lemma faithful_returns {A HF : Type} (query : list A -> answer (list HF))
    (batches : list (list A)) :
  faithful query batches ->
  Forall (fun b => exists r, query b = Returns r) batches.
Proof.
  apply List.Forall_impl. intros b (r & Hr & _). eauto.
Qed.

(** A cycle in which the Registry, every query and the Notifier answer. *)
Lemma health_factor_periodic_task_run {HF : Type} `{PyLt HF} (E : Env HF)
    (self : BaseConnector.t) (w : World HF)
    (all_accounts : list (TrackedAccountWithHF HF)) :
  relevant_accounts E (clock w) = Returns all_accounts ->
  let v2_accounts := List.filter (BaseConnector.is_version "V2") all_accounts in
  let v3_accounts := List.filter (BaseConnector.is_version "V3") all_accounts in
  faithful (v2_health_factors E (clock w)) (batches_of v2_accounts) ->
  faithful (v3_health_factors E (clock w)) (batches_of v3_accounts) ->
  (forall a h, notify E a h = Returns tt) ->
  BaseConnector.health_factor_periodic_task E self w
  = (Ok tt,
     extend w
       ([EvGetAccounts]
        ++ map (EvGetHealthFactors "V2") (batches_of v2_accounts)
        ++ map (EvGetHealthFactors "V3") (batches_of v3_accounts)
        ++ map (fun p => EvNotify (fst p) (snd p))
             (breaches
                (paired (v2_health_factors E (clock w)) (batches_of v2_accounts)
                 ++ paired (v3_health_factors E (clock w))
                      (batches_of v3_accounts))))).
Proof.
  intros Hacc v2_accounts v3_accounts Hq2 Hq3 Hnotify.
  rewrite (health_factor_periodic_task_unfold E self w all_accounts Hacc).
  fold v2_accounts v3_accounts.
  unfold bind at 1.
  rewrite (collect_returns "V2" _ (v2_health_factors E)
             (get_v2_health_factors_spec E))
    by (apply faithful_returns, Hq2).
  unfold bind at 1.
  rewrite (collect_returns "V3" _ (v3_health_factors E)
             (get_v3_health_factors_spec E))
    by (apply faithful_returns, Hq3).
  cbn [clock extend app].
  rewrite check_thresholds_run by exact Hnotify.
  rewrite !extend_extend.
  destruct (combine_batches _ _ Hq2) as [Hlen2 Hpair2].
  destruct (combine_batches _ _ Hq3) as [_ Hpair3].
  rewrite (proj2 (batches_of_spec v2_accounts)) in Hlen2, Hpair2.
  rewrite (proj2 (batches_of_spec v3_accounts)) in Hpair3.
  rewrite combine_app_same by (symmetry; exact Hlen2).
  rewrite Hpair2, Hpair3. reflexivity.
Qed.

(** Claim C4: in a cycle whose queries answer each batch with one factor per
    account, each V2 or V3 account is paired with the factor answered at its
    place in its batch, and the Notifier is called with an account and its
    factor exactly for the pairs whose factor is below the threshold of the
    account, once each, in order; a factor equal to the threshold does not
    alert. *)
Theorem health_factor_alerts {HF : Type} `{PyLt HF} (E : Env HF)
    (self : BaseConnector.t) (w : World HF)
    (all_accounts : list (TrackedAccountWithHF HF)) :
  relevant_accounts E (clock w) = Returns all_accounts ->
  let v2_accounts := List.filter (BaseConnector.is_version "V2") all_accounts in
  let v3_accounts := List.filter (BaseConnector.is_version "V3") all_accounts in
  let pairs :=
    paired (v2_health_factors E (clock w)) (batches_of v2_accounts)
    ++ paired (v3_health_factors E (clock w)) (batches_of v3_accounts) in
  faithful (v2_health_factors E (clock w)) (batches_of v2_accounts) ->
  faithful (v3_health_factors E (clock w)) (batches_of v3_accounts) ->
  (forall a h, notify E a h = Returns tt) ->
  exists w' : World HF,
    BaseConnector.health_factor_periodic_task E self w = (Ok tt, w')
    /\ map fst pairs = v2_accounts ++ v3_accounts
    /\ notified (trace w') = notified (trace w) ++ breaches pairs
    /\ (forall a h,
          In (a, h) (breaches pairs)
          <-> In (a, h) pairs /\ py_lt h (health_factor_threshold a) = true)
    /\ ((forall x : HF, py_lt x x = false) ->
        forall a, ~ In (a, health_factor_threshold a) (breaches pairs)).
Proof.
  intros Hacc v2_accounts v3_accounts pairs Hq2 Hq3 Hnotify.
  eexists. split; [| split; [| split; [| split]]].
  - by apply health_factor_periodic_task_run with (all_accounts := all_accounts).
  - unfold pairs. rewrite map_app, !paired_accounts by done.
    by rewrite (proj2 (batches_of_spec v2_accounts)),
               (proj2 (batches_of_spec v3_accounts)).
  - cbn [trace extend]. fold v2_accounts v3_accounts. fold pairs.
    rewrite !notified_app, !notified_queries, notified_alerts. reflexivity.
  - intros a h. unfold breaches. rewrite filter_In. reflexivity.
  - intros Hirr a Hin. unfold breaches in Hin.
    apply filter_In in Hin as [_ Hlt]. simpl in Hlt.
    by rewrite Hirr in Hlt.
Qed.

(** [health_factor_alerts] on the demo deployment: alice and bob are below
    their thresholds and are notified; carol, exactly at hers, is not. *)
Lemma health_factor_alerts_witness :
  exists w' : World Z,
    BaseConnector.health_factor_periodic_task Demo.env Demo.connector
      (Demo.world [])
    = (Ok tt, w')
    /\ notified (trace w') = [(Demo.alice, 90); (Demo.bob, 90)].
Proof.
  destruct (health_factor_alerts Demo.env Demo.connector (Demo.world [])
              [Demo.alice; Demo.bob; Demo.carol] eq_refl)
    as (w' & Hrun & _ & Hnotified & _).
  - repeat constructor. by exists [90; 150].
  - repeat constructor. by exists [90].
  - reflexivity.
  - exists w'. split; [exact Hrun | exact Hnotified].
Defined.

(** A cycle in which a batched query fails raises that failure, and nobody
    has been notified. *)
Lemma health_factor_periodic_task_raises {HF : Type} `{PyLt HF} (E : Env HF)
    (self : BaseConnector.t) (w : World HF)
    (all_accounts : list (TrackedAccountWithHF HF)) :
  relevant_accounts E (clock w) = Returns all_accounts ->
  let v2_accounts := List.filter (BaseConnector.is_version "V2") all_accounts in
  let v3_accounts := List.filter (BaseConnector.is_version "V3") all_accounts in
  Exists (fun b => failed (v2_health_factors E (clock w) b)) (batches_of v2_accounts)
  \/ Exists (fun b => failed (v3_health_factors E (clock w) b))
       (batches_of v3_accounts) ->
  exists (reason : string) (evs : list (event HF)),
    BaseConnector.health_factor_periodic_task E self w
    = (Raise (ExternalError reason), extend w evs)
    /\ notified evs = [].
Proof.
  intros Hacc v2_accounts v3_accounts Hfail.
  rewrite (health_factor_periodic_task_unfold E self w all_accounts Hacc).
  fold v2_accounts v3_accounts. unfold bind at 1.
  destruct (List.Exists_dec
              (fun b => failed (v2_health_factors E (clock w) b))
              (batches_of v2_accounts)) as [Hex2 | Hall2].
  { intros b. destruct (v2_health_factors E (clock w) b) as [r | reason].
    - right. intros [reason Hr]. discriminate.
    - left. by exists reason. }
  - destruct (collect_raises "V2" _ (v2_health_factors E)
                (get_v2_health_factors_spec E) (batches_of v2_accounts) []
                (extend w [EvGetAccounts]) Hex2)
      as (reason & evs & -> & Hevs).
    exists reason, ([EvGetAccounts] ++ evs). rewrite extend_extend.
    split; [reflexivity |]. by rewrite notified_app, Hevs.
  - destruct Hfail as [Hex2 | Hex3]; [contradiction |].
    rewrite (collect_returns "V2" _ (v2_health_factors E)
               (get_v2_health_factors_spec E)).
    2: { apply List.Forall_Exists_neg in Hall2. revert Hall2.
         apply List.Forall_impl. intros b Hb. cbn [clock extend].
         destruct (v2_health_factors E (clock w) b) as [r | reason]; [eauto |].
         exfalso. apply Hb. by exists reason. }
    unfold bind at 1.
    match goal with
    | |- context [BaseConnector.collect_health_factors _ _ ?factors ?w0] =>
        destruct (collect_raises "V3" _ (v3_health_factors E)
                    (get_v3_health_factors_spec E) (batches_of v3_accounts)
                    factors w0 Hex3)
          as (reason & evs & Hrun3 & Hevs);
        rewrite Hrun3
    end.
    exists reason,
      ([EvGetAccounts]
       ++ map (EvGetHealthFactors "V2") (batches_of v2_accounts) ++ evs).
    rewrite !extend_extend. split; [by reassociate |].
    by rewrite !notified_app, notified_queries, Hevs.
Qed.

(** Claim C3 (as amended): in a polling cycle in which a batched
    health-factor query fails, the failure leaves
    [health_factor_periodic_task] as an exception: the Notifier is not called
    in that cycle, for the accounts of the failed batch or of any other, and
    [monitor_health_factor] ends with that exception instead of waiting for
    the next interval. *)
Theorem batch_failure_ends_polling {HF : Type} `{PyLt HF} (E : Env HF)
    (self : BaseConnector.t) (w : World HF)
    (all_accounts : list (TrackedAccountWithHF HF)) :
  relevant_accounts E (clock w) = Returns all_accounts ->
  let v2_accounts := List.filter (BaseConnector.is_version "V2") all_accounts in
  let v3_accounts := List.filter (BaseConnector.is_version "V3") all_accounts in
  Exists (fun b => failed (v2_health_factors E (clock w) b)) (batches_of v2_accounts)
  \/ Exists (fun b => failed (v3_health_factors E (clock w) b))
       (batches_of v3_accounts) ->
  exists (reason : string) (w' : World HF),
    BaseConnector.health_factor_periodic_task E self w
    = (Raise (ExternalError reason), w')
    /\ notified (trace w') = notified (trace w)
    /\ forall cycles : nat,
         BaseConnector.monitor_health_factor E self (S cycles) w
         = (Stopped (ExternalError reason), w').
Proof.
  intros Hacc v2_accounts v3_accounts Hfail.
  destruct (health_factor_periodic_task_raises E self w all_accounts Hacc Hfail)
    as (reason & evs & Hrun & Hevs).
  exists reason, (extend w evs). split; [exact Hrun |]. split.
  - cbn [trace extend]. by rewrite notified_app, Hevs, app_nil_r.
  - intros cycles. cbn [BaseConnector.monitor_health_factor]. by rewrite Hrun.
Qed.

(** [batch_failure_ends_polling] on the demo deployment with the V2 query out
    of order. *)
Lemma batch_failure_ends_polling_witness :
  exists (reason : string) (w' : World Z),
    BaseConnector.monitor_health_factor Demo.env_v2_down Demo.connector 3
      (Demo.world [])
    = (Stopped (ExternalError reason), w')
    /\ notified (trace w') = [].
Proof.
  destruct (batch_failure_ends_polling Demo.env_v2_down Demo.connector
              (Demo.world []) [Demo.alice; Demo.bob; Demo.carol] eq_refl)
    as (reason & w' & _ & Hnotified & Hloop).
  - left. apply Exists_cons_hd. by exists "rpc down".
  - exists reason, w'. split; [apply Hloop | exact Hnotified].
Defined.

(** Claim C3 as stated fails: the V2 query fails, and the one V3 account,
    whose factor 90 is below its threshold 100, is neither queried nor
    notified in that cycle; the loop has ended, without a sleep. *)
Lemma batch_failure_skips_other_batches :
  let run := BaseConnector.monitor_health_factor Demo.env_v2_down
               Demo.connector 3 (Demo.world []) in
  fst run = Stopped (ExternalError "rpc down")
  /\ trace (snd run)
     = [EvGetAccounts; EvGetHealthFactors "V2" [Demo.alice; Demo.carol]]
  /\ notified (trace (snd run)) = []
  /\ (Demo.factor Demo.bob <? health_factor_threshold Demo.bob) = true.
Proof. by vm_compute. Qed.

(** * Further properties *)

(** ** [make_batches]: sizes, count and places *)

Lemma batch_count_covers (n b : nat) :
  (0 < b)%nat -> (n <= batch_count n b * b)%nat.
Proof.
  intros Hb. unfold batch_count.
  pose proof (Nat.div_mod (n + b - 1) b ltac:(lia)) as Hd.
  pose proof (Nat.mod_upper_bound (n + b - 1) b ltac:(lia)) as Hm.
  set (q := ((n + b - 1) / b)%nat) in *. nia.
Qed.

Lemma batch_count_lt (n b k : nat) :
  (0 < b)%nat -> (k < batch_count n b)%nat -> (k * b < n)%nat.
Proof.
  intros Hb. unfold batch_count.
  pose proof (Nat.div_mod (n + b - 1) b ltac:(lia)) as Hd.
  pose proof (Nat.mod_upper_bound (n + b - 1) b ltac:(lia)) as Hm.
  set (q := ((n + b - 1) / b)%nat) in *. nia.
Qed.

Lemma batch_count_range (n b : nat) :
  (0 < b)%nat ->
  Z.to_nat (Py.range_len 0 (Z.of_nat n) (Z.of_nat b)) = batch_count n b.
Proof.
  intros Hb. unfold batch_count. destruct n as [| n].
  - unfold Py.range_len. simpl.
    assert (H1 : (0 <? Z.of_nat b) = true) by (apply Z.ltb_lt; lia).
    rewrite H1. simpl. symmetry. apply Nat.div_small. lia.
  - rewrite range_len_pos by lia.
    replace (Z.of_nat (S n) - 1) with (Z.of_nat n) by lia.
    rewrite <- Nat2Z.inj_div.
    replace (S n + b - 1)%nat with (n + 1 * b)%nat by lia.
    rewrite Nat.div_add by lia. lia.
Qed.

Lemma make_batches_count_windows {A : Type} (l : list A) (b : nat) :
  (0 < b)%nat ->
  make_batches l (Z.of_nat b) = Ok (windows b (batch_count (length l) b) l).
Proof.
  intros Hb. rewrite make_batches_windows by exact Hb.
  by rewrite batch_count_range.
Qed.

(** Property X1. A batch size of zero raises [ValueError] for every list, the empty one
    included; a negative size yields no batch, whatever the list. *)
Theorem make_batches_nonpositive {A : Type} (lst : list A) (B : Z) :
  B <= 0 ->
  make_batches lst B
  = if B =? 0
    then Raise (ValueError "range() arg 3 must not be zero")
    else Ok [].
Proof.
  intros HB. unfold make_batches, Py.range.
  destruct (Z.eqb_spec B 0) as [-> | Hnz]; [reflexivity |].
  unfold Py.range_len.
  assert (H1 : (0 <? B) = false) by (apply Z.ltb_ge; lia).
  assert (H2 : (Z.of_nat (length lst) <? 0) = false) by (apply Z.ltb_ge; lia).
  by rewrite H1, H2.
Qed.

Lemma make_batches_nonpositive_witness :
  -3 <= 0 /\ make_batches ["a"; "b"] (-3) = Ok [].
Proof.
  split; [lia |]. apply (make_batches_nonpositive ["a"; "b"] (-3)). lia.
Defined.

(** Property X2. For a positive size [B], a list of [n] elements is cut in
    [(n + B - 1) / B] batches: none for the empty list, and only then. *)
Theorem make_batches_count {A : Type} (lst : list A) (B : Z) :
  0 < B ->
  exists bs : list (list A),
    make_batches lst B = Ok bs
    /\ Z.of_nat (length bs) = (Z.of_nat (length lst) + B - 1) / B
    /\ (bs = [] <-> lst = []).
Proof.
  intros HB. set (b := Z.to_nat B).
  assert (Hb : Z.of_nat b = B) by (subst b; lia).
  exists (windows b (batch_count (length lst) b) lst).
  split; [| split].
  - rewrite <- Hb. apply make_batches_count_windows. lia.
  - rewrite windows_length. unfold batch_count.
    rewrite Nat2Z.inj_div, <- Hb. f_equal. lia.
  - split.
    + intros Hnil. apply (f_equal length) in Hnil.
      rewrite windows_length in Hnil. simpl in Hnil.
      pose proof (batch_count_covers (length lst) b ltac:(lia)) as Hc.
      rewrite Hnil in Hc. destruct lst; [done | simpl in Hc; lia].
    + intros ->. simpl. unfold batch_count. simpl.
      rewrite Nat.div_small by lia. reflexivity.
Qed.

Lemma make_batches_count_witness :
  0 < 2
  /\ exists bs : list (list Z),
       make_batches [1; 2; 3; 4; 5] 2 = Ok bs
       /\ Z.of_nat (length bs) = 3
       /\ (bs = [] <-> [1; 2; 3; 4; 5] = []).
Proof.
  split; [lia |]. apply (make_batches_count [1; 2; 3; 4; 5] 2). lia.
Defined.

(** Property X3. For a positive size [B], no batch is empty and none has more than [B]
    elements. *)
Theorem make_batches_bounds {A : Type} (lst : list A) (B : Z)
    (bs : list (list A)) :
  0 < B ->
  make_batches lst B = Ok bs ->
  Forall (fun batch => (0 < length batch)%nat /\ Z.of_nat (length batch) <= B) bs.
Proof.
  intros HB. set (b := Z.to_nat B).
  assert (Hb : Z.of_nat b = B) by (subst b; lia).
  rewrite <- Hb, make_batches_count_windows by lia. intros [= <-].
  unfold windows. apply Forall_fmap, Forall_forall. intros k Hk.
  apply list_elem_of_In, in_seq in Hk. simpl.
  pose proof (batch_count_lt (length lst) b k ltac:(lia) ltac:(lia)) as Hlt.
  rewrite length_firstn, length_skipn. lia.
Qed.

Lemma make_batches_bounds_witness :
  0 < 2
  /\ Forall (fun batch : list Z =>
               (0 < length batch)%nat /\ Z.of_nat (length batch) <= 2)
       [[1; 2]; [3; 4]; [5]].
Proof.
  split; [lia |].
  apply (make_batches_bounds [1; 2; 3; 4; 5] 2); [lia | reflexivity].
Defined.

(** Property X4. For a positive size [B], the element at place [i] of the list is the
    element at place [i mod B] of the batch at place [i / B]. *)
Theorem make_batches_places {A : Type} (lst : list A) (B : Z)
    (bs : list (list A)) (i : nat) (x : A) :
  0 < B ->
  make_batches lst B = Ok bs ->
  lst !! i = Some x ->
  exists batch : list A,
    bs !! Nat.div i (Z.to_nat B) = Some batch
    /\ batch !! Nat.modulo i (Z.to_nat B) = Some x.
Proof.
  intros HB. set (b := Z.to_nat B).
  assert (Hb : Z.of_nat b = B) by (subst b; lia).
  rewrite <- Hb, make_batches_count_windows by lia. intros [= <-] Hx.
  assert (Hi : (i < length lst)%nat) by (by eapply lookup_lt_Some).
  pose proof (batch_count_covers (length lst) b ltac:(lia)) as Hc.
  assert (Hk : (Nat.div i b < batch_count (length lst) b)%nat).
  { apply Nat.Div0.div_lt_upper_bound. lia. }
  eexists. split; [by apply windows_lookup |].
  rewrite lookup_take_lt by (apply Nat.mod_upper_bound; lia).
  rewrite lookup_drop.
  replace (Nat.div i b * b + Nat.modulo i b)%nat with i; [exact Hx |].
  rewrite (Nat.div_mod i b) at 1 by lia. lia.
Qed.

Lemma make_batches_places_witness :
  exists batch : list string,
    [["a"; "b"]; ["c"; "d"]; ["e"]] !! Nat.div 3 (Z.to_nat 2) = Some batch
    /\ batch !! Nat.modulo 3 (Z.to_nat 2) = Some "d".
Proof.
  apply (make_batches_places ["a"; "b"; "c"; "d"; "e"] 2 _ 3 "d");
    [lia | reflexivity | reflexivity].
Defined.

(** ** Computations that keep a relation *)

Section Respects.

Context {HF : Type} (R : World HF -> World HF -> Prop).
Hypothesis R_refl : forall w, R w w.
Hypothesis R_trans : forall w1 w2 w3, R w1 w2 -> R w2 w3 -> R w1 w3.

Lemma respects_ret {A : Type} (a : A) : respects R (ret a).
Proof. intros w. apply R_refl. Qed.

Lemma respects_raise {A : Type} (e : exn) : respects R (@raise HF A e).
Proof. intros w. apply R_refl. Qed.

Lemma respects_lift {A : Type} (r : result A) : respects R (lift r).
Proof. intros w. apply R_refl. Qed.

Lemma respects_now : respects R now.
Proof. intros w. apply R_refl. Qed.

Lemma respects_bind {A B : Type} (m : M HF A) (k : A -> M HF B) :
  respects R m -> (forall a, respects R (k a)) -> respects R (bind m k).
Proof.
  intros Hm Hk w. unfold bind. specialize (Hm w).
  destruct (m w) as [[a | e] w1]; simpl in *; [| exact Hm].
  eapply R_trans; [exact Hm | apply Hk].
Qed.

Lemma respects_emit (ev : event HF) :
  (forall w, R w (extend w [ev])) -> respects R (emit ev).
Proof. intros Hev w. apply Hev. Qed.

End Respects.

(** Closes a goal that says an event, or none, keeps a frame. *)
Ltac frame :=
  intros;
  unfold polling_frame, monitor_frame, listening_frame, extend;
  cbn [settings clock inbox trace];
  unfold slept, queried, sent, notified, printed;
  rewrite ?flat_map_app; cbn [flat_map app]; rewrite ?app_nil_r;
  repeat split; congruence.

Lemma polling_frame_refl {HF : Type} (w : World HF) : polling_frame w w.
Proof. frame. Qed.

Lemma polling_frame_trans {HF : Type} (w1 w2 w3 : World HF) :
  polling_frame w1 w2 -> polling_frame w2 w3 -> polling_frame w1 w3.
Proof. unfold polling_frame. intuition congruence. Qed.

Lemma monitor_frame_refl {HF : Type} (w : World HF) : monitor_frame w w.
Proof. frame. Qed.

Lemma monitor_frame_trans {HF : Type} (w1 w2 w3 : World HF) :
  monitor_frame w1 w2 -> monitor_frame w2 w3 -> monitor_frame w1 w3.
Proof. unfold monitor_frame. intuition congruence. Qed.

Lemma listening_frame_refl {HF : Type} (w : World HF) : listening_frame w w.
Proof. frame. Qed.

Lemma listening_frame_trans {HF : Type} (w1 w2 w3 : World HF) :
  listening_frame w1 w2 -> listening_frame w2 w3 -> listening_frame w1 w3.
Proof. unfold listening_frame. intuition congruence. Qed.

(** ** A polling cycle, whatever the collaborators answer *)

Section PollingFrame.

Context {HF : Type} `{PyLt HF} (E : Env HF).

Let keeps {A : Type} (m : M HF A) : Prop := respects polling_frame m.

Lemma keeps_bind {A B : Type} (m : M HF A) (k : A -> M HF B) :
  keeps m -> (forall a, keeps (k a)) -> keeps (bind m k).
Proof. apply respects_bind, polling_frame_trans. Qed.

Lemma keeps_query (ev : event HF) {A : Type} (r : Z -> result A) :
  (forall w, polling_frame w (extend w [ev])) ->
  keeps (emit ev ;; let* t := now in lift (r t)).
Proof.
  intros Hev. apply keeps_bind; [by apply respects_emit |]. intros _.
  apply keeps_bind; [apply respects_now, polling_frame_refl |]. intros t.
  apply respects_lift, polling_frame_refl.
Qed.

Lemma keeps_collect
    (ask : list (TrackedAccountWithHF HF) -> M HF (list HF))
    (batches : list (list (TrackedAccountWithHF HF))) :
  (forall batch, keeps (ask batch)) ->
  forall factors, keeps (BaseConnector.collect_health_factors ask batches factors).
Proof.
  intros Hask. induction batches as [| batch rest IH]; intros factors.
  - apply respects_ret, polling_frame_refl.
  - cbn [BaseConnector.collect_health_factors].
    apply keeps_bind; [apply Hask |]. intros answer. apply IH.
Qed.

Lemma keeps_check_thresholds (pairs : list (TrackedAccountWithHF HF * HF)) :
  keeps (BaseConnector.check_thresholds E pairs).
Proof.
  induction pairs as [| [a h] rest IH].
  - apply respects_ret, polling_frame_refl.
  - cbn [BaseConnector.check_thresholds]. apply keeps_bind; [| by intros _].
    destruct (py_lt h (health_factor_threshold a)).
    + unfold BaseConnector.notifier_notify.
      apply keeps_bind; [apply respects_emit; frame |]. intros _.
      apply respects_lift, polling_frame_refl.
    + apply respects_ret, polling_frame_refl.
Qed.

Lemma keeps_health_factor_periodic_task (self : BaseConnector.t) :
  keeps (BaseConnector.health_factor_periodic_task E self).
Proof.
  unfold BaseConnector.health_factor_periodic_task.
  apply keeps_bind; [apply keeps_query; frame |]. intros all_accounts.
  apply keeps_bind; [apply respects_lift, polling_frame_refl |]. intros bs2.
  apply keeps_bind.
  { apply keeps_collect. intros batch. apply keeps_query. frame. }
  intros f2.
  apply keeps_bind; [apply respects_lift, polling_frame_refl |]. intros bs3.
  apply keeps_bind.
  { apply keeps_collect. intros batch. apply keeps_query. frame. }
  intros f3. apply keeps_check_thresholds.
Qed.

End PollingFrame.

(** Property X5. On every path, a polling cycle leaves the Checkpoint store, the clock
    and the websocket frames as they were: it never sleeps, issues no
    historical query and sends nothing. *)
Theorem polling_cycle_frame {HF : Type} `{PyLt HF} (E : Env HF)
    (self : BaseConnector.t) (w : World HF) :
  polling_frame w (snd (BaseConnector.health_factor_periodic_task E self w)).
Proof. apply keeps_health_factor_periodic_task. Qed.

(** ** A polling cycle, case by case *)

Lemma filter_none {A : Type} (p : A -> bool) (l : list A) :
  (forall x, In x l -> p x = false) -> List.filter p l = [].
Proof.
  induction l as [| x l IH]; intros Hp; [done |].
  simpl. rewrite (Hp x) by (by left). apply IH. intros y Hy. apply Hp. by right.
Qed.

(** Property X6. A cycle with no account of either protocol version, an empty Registry
    included, asks the Registry and does nothing else: no query, no
    notification, no exception. *)
Theorem idle_cycle {HF : Type} `{PyLt HF} (E : Env HF) (self : BaseConnector.t)
    (w : World HF) (all_accounts : list (TrackedAccountWithHF HF)) :
  relevant_accounts E (clock w) = Returns all_accounts ->
  (forall a, In a all_accounts ->
             aave_version (account a) <> "V2" /\ aave_version (account a) <> "V3") ->
  BaseConnector.health_factor_periodic_task E self w
  = (Ok tt, extend w [EvGetAccounts]).
Proof.
  intros Hacc Hnone.
  rewrite (health_factor_periodic_task_unfold E self w all_accounts Hacc).
  rewrite !filter_none.
  - unfold bind. simpl. unfold ret. reflexivity.
  - intros a Ha. apply String.eqb_neq, (Hnone a Ha).
  - intros a Ha. apply String.eqb_neq, (Hnone a Ha).
Qed.

Lemma idle_cycle_witness :
  BaseConnector.health_factor_periodic_task Faults.nobody Demo.connector
    (Demo.world [])
  = (Ok tt, extend (Demo.world []) [EvGetAccounts]).
Proof.
  apply (idle_cycle Faults.nobody Demo.connector (Demo.world []) []);
    [reflexivity | intros a []].
Defined.

(** Property X7. When the Registry fails, the cycle raises that failure before any
    query, and the polling loop ends with it. *)
Theorem registry_failure_ends_polling {HF : Type} `{PyLt HF} (E : Env HF)
    (self : BaseConnector.t) (w : World HF) (reason : string) :
  relevant_accounts E (clock w) = Fails reason ->
  BaseConnector.health_factor_periodic_task E self w
  = (Raise (ExternalError reason), extend w [EvGetAccounts])
  /\ forall cycles : nat,
       BaseConnector.monitor_health_factor E self (S cycles) w
       = (Stopped (ExternalError reason), extend w [EvGetAccounts]).
Proof.
  intros Hacc.
  assert (Hrun : BaseConnector.health_factor_periodic_task E self w
                 = (Raise (ExternalError reason), extend w [EvGetAccounts])).
  { unfold BaseConnector.health_factor_periodic_task.
    unfold bind at 1. unfold BaseConnector.get_relevant_accounts_with_thresholds.
    unfold bind at 1. rewrite emit_extend. unfold bind at 1. unfold now at 1.
    cbn [clock extend]. unfold lift at 1. by rewrite Hacc. }
  split; [exact Hrun |]. intros cycles.
  cbn [BaseConnector.monitor_health_factor]. by rewrite Hrun.
Qed.

Lemma registry_failure_ends_polling_witness :
  BaseConnector.monitor_health_factor Faults.registry_down Demo.connector 4
    (Demo.world [])
  = (Stopped (ExternalError "db down"), extend (Demo.world []) [EvGetAccounts]).
Proof.
  apply (proj2 (registry_failure_ends_polling Faults.registry_down
                  Demo.connector (Demo.world []) "db down" eq_refl)).
Defined.

(** The cycle up to its last loop, when the Registry and every query
    answer, with as many factors as they please. *)
Lemma health_factor_periodic_task_queries {HF : Type} `{PyLt HF} (E : Env HF)
    (self : BaseConnector.t) (w : World HF)
    (all_accounts : list (TrackedAccountWithHF HF)) :
  relevant_accounts E (clock w) = Returns all_accounts ->
  let v2_accounts := List.filter (BaseConnector.is_version "V2") all_accounts in
  let v3_accounts := List.filter (BaseConnector.is_version "V3") all_accounts in
  Forall (fun b => exists r, v2_health_factors E (clock w) b = Returns r)
    (batches_of v2_accounts) ->
  Forall (fun b => exists r, v3_health_factors E (clock w) b = Returns r)
    (batches_of v3_accounts) ->
  BaseConnector.health_factor_periodic_task E self w
  = BaseConnector.check_thresholds E
      (combine (v2_accounts ++ v3_accounts)
         (flat_map (fun b => answered (v2_health_factors E (clock w) b))
            (batches_of v2_accounts)
          ++ flat_map (fun b => answered (v3_health_factors E (clock w) b))
               (batches_of v3_accounts)))
      (extend w ([EvGetAccounts]
                 ++ map (EvGetHealthFactors "V2") (batches_of v2_accounts)
                 ++ map (EvGetHealthFactors "V3") (batches_of v3_accounts))).
Proof.
  intros Hacc v2_accounts v3_accounts Hq2 Hq3.
  rewrite (health_factor_periodic_task_unfold E self w all_accounts Hacc).
  fold v2_accounts v3_accounts.
  unfold bind at 1.
  rewrite (collect_returns "V2" _ (v2_health_factors E)
             (get_v2_health_factors_spec E)) by exact Hq2.
  unfold bind at 1.
  rewrite (collect_returns "V3" _ (v3_health_factors E)
             (get_v3_health_factors_spec E)) by exact Hq3.
  cbn [clock extend app]. by rewrite !extend_extend.
Qed.

Lemma health_queries_app {HF : Type} (tr1 tr2 : list (event HF)) :
  health_queries (tr1 ++ tr2) = health_queries tr1 ++ health_queries tr2.
Proof. apply flat_map_app. Qed.

Lemma health_queries_asked {HF : Type} (v : string)
    (batches : list (list (TrackedAccountWithHF HF))) :
  health_queries (map (EvGetHealthFactors v) batches) = map (pair v) batches.
Proof. induction batches as [| b rest IH]; [done | simpl; by rewrite IH]. Qed.

Lemma health_queries_alerts {HF : Type}
    (pairs : list (TrackedAccountWithHF HF * HF)) :
  health_queries (map (fun p => EvNotify (fst p) (snd p)) pairs) = [].
Proof. induction pairs as [| p rest IH]; [done | simpl; by rewrite IH]. Qed.

(** Whatever the Notifier answers, the last loop calls it on a first part
    of the breaches, in order, and on nothing else. *)
Lemma check_thresholds_trace {HF : Type} `{PyLt HF} (E : Env HF)
    (pairs : list (TrackedAccountWithHF HF * HF)) :
  forall w : World HF,
    exists k : nat,
      snd (BaseConnector.check_thresholds E pairs w)
      = extend w (map (fun p => EvNotify (fst p) (snd p))
                    (firstn k (breaches pairs))).
Proof.
  induction pairs as [| [a h] rest IH]; intros w.
  - exists 0%nat. simpl. by rewrite extend_nil.
  - cbn [BaseConnector.check_thresholds breaches List.filter fst snd].
    unfold bind at 1. fold (breaches rest).
    destruct (py_lt h (health_factor_threshold a)).
    + unfold BaseConnector.notifier_notify, bind, lift. rewrite emit_extend.
      destruct (notify E a h) as [[] | reason]; cbn [to_result].
      * destruct (IH (extend w [EvNotify a h])) as [k ->].
        exists (S k). by rewrite extend_extend.
      * by exists 1%nat.
    + unfold ret. apply IH.
Qed.

Lemma batches_of_bounds {A : Type} (accounts : list A) :
  Forall (fun batch => (0 < length batch)%nat
                       /\ Z.of_nat (length batch) <= HEALTH_FACTOR_BATCH_SIZE)
    (batches_of accounts).
Proof.
  unfold batches_of.
  change HEALTH_FACTOR_BATCH_SIZE with (Z.of_nat 100).
  rewrite make_batches_count_windows by lia.
  unfold windows. apply Forall_fmap, Forall_forall. intros k Hk.
  apply list_elem_of_In, in_seq in Hk. simpl.
  pose proof (batch_count_lt (length accounts) 100 k ltac:(lia) ltac:(lia)).
  rewrite length_firstn, length_skipn. lia.
Qed.

Lemma batches_of_members {A : Type} (P : A -> Prop) (accounts : list A) :
  Forall P accounts -> Forall (Forall P) (batches_of accounts).
Proof.
  intros HP. rewrite <- (proj2 (batches_of_spec accounts)) in HP.
  revert HP. generalize (batches_of accounts).
  induction l as [| b rest IH]; intros HP; [constructor |].
  simpl in HP. apply Forall_app in HP as [Hb Hrest]. constructor; auto.
Qed.

Lemma filter_version {HF : Type} (v : string)
    (accounts : list (TrackedAccountWithHF HF)) :
  Forall (fun a => aave_version (account a) = v)
    (List.filter (BaseConnector.is_version v) accounts).
Proof.
  apply Forall_forall. intros a Ha.
  apply list_elem_of_In, filter_In in Ha as [_ Ha].
  by apply String.eqb_eq in Ha.
Qed.

(** Property X8. When the Registry and the queries answer, the cycle makes one query per
    batch, the V2 batches first and then the V3 batches, whatever the
    Notifier does afterwards. The batches of a version, put end to end, are
    the accounts of that version in the order of the Registry; no batch is
    empty, none has more than 100 accounts, and none mixes the versions. *)
Theorem cycle_queries {HF : Type} `{PyLt HF} (E : Env HF)
    (self : BaseConnector.t) (w : World HF)
    (all_accounts : list (TrackedAccountWithHF HF)) :
  relevant_accounts E (clock w) = Returns all_accounts ->
  let v2_accounts := List.filter (BaseConnector.is_version "V2") all_accounts in
  let v3_accounts := List.filter (BaseConnector.is_version "V3") all_accounts in
  Forall (fun b => exists r, v2_health_factors E (clock w) b = Returns r)
    (batches_of v2_accounts) ->
  Forall (fun b => exists r, v3_health_factors E (clock w) b = Returns r)
    (batches_of v3_accounts) ->
  health_queries (trace (snd (BaseConnector.health_factor_periodic_task E self w)))
  = health_queries (trace w)
    ++ map (pair "V2") (batches_of v2_accounts)
    ++ map (pair "V3") (batches_of v3_accounts)
  /\ concat (batches_of v2_accounts) = v2_accounts
  /\ concat (batches_of v3_accounts) = v3_accounts
  /\ Forall (fun vb =>
               (0 < length (snd vb))%nat
               /\ Z.of_nat (length (snd vb)) <= HEALTH_FACTOR_BATCH_SIZE
               /\ Forall (fun a => aave_version (account a) = fst vb) (snd vb))
       (map (pair "V2") (batches_of v2_accounts)
        ++ map (pair "V3") (batches_of v3_accounts)).
Proof.
  intros Hacc v2_accounts v3_accounts Hq2 Hq3.
  split; [| split; [| split]].
  - rewrite (health_factor_periodic_task_queries E self w all_accounts Hacc Hq2 Hq3).
    fold v2_accounts v3_accounts.
    match goal with
    | |- context [BaseConnector.check_thresholds E ?pairs ?w0] =>
        destruct (check_thresholds_trace E pairs w0) as [k ->]
    end.
    cbn [trace extend].
    rewrite !health_queries_app, !health_queries_asked, health_queries_alerts.
    simpl. by rewrite app_nil_r.
  - apply batches_of_spec.
  - apply batches_of_spec.
  - apply Forall_app. split; apply Forall_fmap.
    + pose proof (batches_of_bounds v2_accounts) as Hb.
      pose proof (batches_of_members _ _ (filter_version "V2" all_accounts)) as Hm.
      fold v2_accounts in Hm. revert Hb Hm. generalize (batches_of v2_accounts).
      induction l as [| b rest IH]; intros Hb Hm; [constructor |].
      inversion Hb; inversion Hm; subst. constructor; [simpl; tauto | auto].
    + pose proof (batches_of_bounds v3_accounts) as Hb.
      pose proof (batches_of_members _ _ (filter_version "V3" all_accounts)) as Hm.
      fold v3_accounts in Hm. revert Hb Hm. generalize (batches_of v3_accounts).
      induction l as [| b rest IH]; intros Hb Hm; [constructor |].
      inversion Hb; inversion Hm; subst. constructor; [simpl; tauto | auto].
Qed.

Lemma cycle_queries_witness :
  health_queries
    (trace (snd (BaseConnector.health_factor_periodic_task Faults.notifier_down
                   Demo.connector (Demo.world []))))
  = [("V2", [Demo.alice; Demo.carol]); ("V3", [Demo.bob])].
Proof.
  apply (proj1 (cycle_queries Faults.notifier_down Demo.connector (Demo.world [])
                  [Demo.alice; Demo.bob; Demo.carol] eq_refl
                  ltac:(repeat constructor; by eexists)
                  ltac:(repeat constructor; by eexists))).
Defined.

(** Property X9. The factors are paired with the accounts by their place in the whole:
    the V2 accounts then the V3 accounts against the factors answered for
    the V2 batches then for the V3 batches, cut at the shorter. So when a
    query answers fewer factors than its batch has accounts, the factors
    that follow are checked against the thresholds of earlier accounts, and
    the accounts past the last factor are not checked. *)
Theorem factors_paired_by_place {HF : Type} `{PyLt HF} (E : Env HF)
    (self : BaseConnector.t) (w : World HF)
    (all_accounts : list (TrackedAccountWithHF HF)) :
  relevant_accounts E (clock w) = Returns all_accounts ->
  let v2_accounts := List.filter (BaseConnector.is_version "V2") all_accounts in
  let v3_accounts := List.filter (BaseConnector.is_version "V3") all_accounts in
  let factors :=
    flat_map (fun b => answered (v2_health_factors E (clock w) b))
      (batches_of v2_accounts)
    ++ flat_map (fun b => answered (v3_health_factors E (clock w) b))
         (batches_of v3_accounts) in
  Forall (fun b => exists r, v2_health_factors E (clock w) b = Returns r)
    (batches_of v2_accounts) ->
  Forall (fun b => exists r, v3_health_factors E (clock w) b = Returns r)
    (batches_of v3_accounts) ->
  (forall a h, notify E a h = Returns tt) ->
  exists w' : World HF,
    BaseConnector.health_factor_periodic_task E self w = (Ok tt, w')
    /\ notified (trace w')
       = notified (trace w)
         ++ breaches (combine (v2_accounts ++ v3_accounts) factors)
    /\ (length (notified (trace w')) <= length (notified (trace w)) + length factors)%nat.
Proof.
  intros Hacc v2_accounts v3_accounts factors Hq2 Hq3 Hnotify.
  rewrite (health_factor_periodic_task_queries E self w all_accounts Hacc Hq2 Hq3).
  fold v2_accounts v3_accounts. fold factors.
  rewrite check_thresholds_run by exact Hnotify.
  eexists. split; [reflexivity |]. cbn [trace extend].
  rewrite !notified_app, !notified_queries, notified_alerts. simpl.
  rewrite ?app_nil_r.
  split; [reflexivity |].
  rewrite length_app. unfold breaches.
  pose proof (filter_length_le
                (fun p => py_lt (snd p) (health_factor_threshold (fst p)))
                (combine (v2_accounts ++ v3_accounts) factors)) as Hle.
  rewrite length_combine in Hle. lia.
Qed.

Lemma factors_paired_by_place_witness :
  exists w' : World Z,
    BaseConnector.health_factor_periodic_task Faults.v2_silent Demo.connector
      (Demo.world [])
    = (Ok tt, w')
    /\ notified (trace w') = [(Demo.alice, Demo.factor Demo.bob)]
    /\ (length (notified (trace w')) <= 1)%nat.
Proof.
  apply (factors_paired_by_place Faults.v2_silent Demo.connector (Demo.world [])
           [Demo.alice; Demo.bob; Demo.carol] eq_refl
           ltac:(repeat constructor; by eexists)
           ltac:(repeat constructor; by eexists)
           ltac:(reflexivity)).
Defined.

(** The last loop when the Notifier fails on a breach: the breaches before
    it have been notified, the call that failed has been made, and the rest
    is not reached. *)
Lemma check_thresholds_fails {HF : Type} `{PyLt HF} (E : Env HF)
    (a : TrackedAccountWithHF HF) (h : HF) (reason : string)
    (post : list (TrackedAccountWithHF HF * HF)) :
  notify E a h = Fails reason ->
  forall (pairs pre : list (TrackedAccountWithHF HF * HF)) (w : World HF),
    breaches pairs = pre ++ (a, h) :: post ->
    Forall (fun p => notify E (fst p) (snd p) = Returns tt) pre ->
    BaseConnector.check_thresholds E pairs w
    = (Raise (ExternalError reason),
       extend w (map (fun p => EvNotify (fst p) (snd p)) (pre ++ [(a, h)]))).
Proof.
  intros Hfail. induction pairs as [| [a0 h0] rest IH]; intros pre w Hbr Hpre.
  - destruct pre; discriminate Hbr.
  - cbn [BaseConnector.check_thresholds]. unfold bind at 1.
    cbn [breaches List.filter fst snd] in Hbr. fold (breaches rest) in Hbr.
    destruct (py_lt h0 (health_factor_threshold a0)).
    + unfold BaseConnector.notifier_notify, bind, lift. rewrite emit_extend.
      destruct pre as [| p pre].
      * injection Hbr as -> -> _. by rewrite Hfail.
      * injection Hbr as <- Hbr. inversion Hpre as [| ? ? Hp Hpre']; subst.
        simpl in Hp. rewrite Hp. cbn [to_result].
        rewrite (IH pre _ Hbr Hpre'), extend_extend. reflexivity.
    + unfold ret. by apply IH.
Qed.

(** Property X10. When the Notifier fails on a breach, the cycle raises that failure: the
    breaches before it have been notified, the later ones are not, and the
    polling loop ends. *)
Theorem notifier_failure_ends_polling {HF : Type} `{PyLt HF} (E : Env HF)
    (self : BaseConnector.t) (w : World HF)
    (all_accounts : list (TrackedAccountWithHF HF))
    (pre post : list (TrackedAccountWithHF HF * HF))
    (a : TrackedAccountWithHF HF) (h : HF) (reason : string) :
  relevant_accounts E (clock w) = Returns all_accounts ->
  let v2_accounts := List.filter (BaseConnector.is_version "V2") all_accounts in
  let v3_accounts := List.filter (BaseConnector.is_version "V3") all_accounts in
  let factors :=
    flat_map (fun b => answered (v2_health_factors E (clock w) b))
      (batches_of v2_accounts)
    ++ flat_map (fun b => answered (v3_health_factors E (clock w) b))
         (batches_of v3_accounts) in
  Forall (fun b => exists r, v2_health_factors E (clock w) b = Returns r)
    (batches_of v2_accounts) ->
  Forall (fun b => exists r, v3_health_factors E (clock w) b = Returns r)
    (batches_of v3_accounts) ->
  breaches (combine (v2_accounts ++ v3_accounts) factors) = pre ++ (a, h) :: post ->
  Forall (fun p => notify E (fst p) (snd p) = Returns tt) pre ->
  notify E a h = Fails reason ->
  exists w' : World HF,
    BaseConnector.health_factor_periodic_task E self w
    = (Raise (ExternalError reason), w')
    /\ notified (trace w') = notified (trace w) ++ pre ++ [(a, h)]
    /\ forall cycles : nat,
         BaseConnector.monitor_health_factor E self (S cycles) w
         = (Stopped (ExternalError reason), w').
Proof.
  intros Hacc v2_accounts v3_accounts factors Hq2 Hq3 Hbr Hpre Hfail.
  assert (Hrun : exists w',
             BaseConnector.health_factor_periodic_task E self w
             = (Raise (ExternalError reason), w')
             /\ notified (trace w') = notified (trace w) ++ pre ++ [(a, h)]).
  { rewrite (health_factor_periodic_task_queries E self w all_accounts
               Hacc Hq2 Hq3).
    fold v2_accounts v3_accounts. fold factors.
    rewrite (check_thresholds_fails E a h reason post Hfail _ pre _ Hbr Hpre).
    eexists. split; [reflexivity |]. cbn [trace extend].
    rewrite !notified_app, !notified_queries, notified_alerts. simpl.
    by rewrite ?app_nil_r. }
  destruct Hrun as (w' & Hrun & Hnotified).
  exists w'. split; [exact Hrun |]. split; [exact Hnotified |].
  intros cycles. cbn [BaseConnector.monitor_health_factor]. by rewrite Hrun.
Qed.

Lemma notifier_failure_ends_polling_witness :
  exists w' : World Z,
    BaseConnector.health_factor_periodic_task Faults.notifier_down
      Demo.connector (Demo.world [])
    = (Raise (ExternalError "smtp down"), w')
    /\ notified (trace w') = [(Demo.alice, 90); (Demo.bob, 90)].
Proof.
  destruct (notifier_failure_ends_polling Faults.notifier_down Demo.connector
              (Demo.world []) [Demo.alice; Demo.bob; Demo.carol]
              [(Demo.alice, 90)] [] Demo.bob 90 "smtp down" eq_refl
              ltac:(repeat constructor; by eexists)
              ltac:(repeat constructor; by eexists)
              eq_refl ltac:(repeat constructor) eq_refl)
    as (w' & Hrun & Hnotified & _).
  exists w'. split; [exact Hrun | exact Hnotified].
Defined.

(** ** [monitor_health_factor]: the loop *)

Lemma slept_app {HF : Type} (tr1 tr2 : list (event HF)) :
  slept (tr1 ++ tr2) = slept tr1 ++ slept tr2.
Proof. apply flat_map_app. Qed.

(** Property X11. As long as the cycles return, the loop goes on: after any number of
    cycles it is still running, it has waited [HEALTH_FACTOR_CHECK_PERIOD]
    seconds after each of them and at no other time. *)
Theorem polling_goes_on {HF : Type} `{PyLt HF} (E : Env HF)
    (self : BaseConnector.t) :
  (forall w : World HF,
     fst (BaseConnector.health_factor_periodic_task E self w) = Ok tt) ->
  forall (cycles : nat) (w : World HF),
    fst (BaseConnector.monitor_health_factor E self cycles w) = Running
    /\ clock (snd (BaseConnector.monitor_health_factor E self cycles w))
       = clock w + HEALTH_FACTOR_CHECK_PERIOD * Z.of_nat cycles
    /\ slept (trace (snd (BaseConnector.monitor_health_factor E self cycles w)))
       = slept (trace w) ++ repeat HEALTH_FACTOR_CHECK_PERIOD cycles.
Proof.
  intros Hok. induction cycles as [| cycles IH]; intros w.
  - simpl. rewrite app_nil_r. repeat split. lia.
  - cbn [BaseConnector.monitor_health_factor].
    pose proof (Hok w) as Hw.
    pose proof (keeps_health_factor_periodic_task E self w)
      as (_ & Hclock & _ & Hslept & _).
    destruct (BaseConnector.health_factor_periodic_task E self w)
      as [[[] | e] w1]; simpl in Hw, Hclock, Hslept; [| discriminate].
    destruct (IH (sleep HEALTH_FACTOR_CHECK_PERIOD w1)) as (Hrun & Hc & Hs).
    split; [exact Hrun |]. split.
    + rewrite Hc. cbn [clock sleep]. rewrite Hclock. lia.
    + rewrite Hs. cbn [trace sleep]. rewrite slept_app, Hslept. simpl.
      by rewrite <- app_assoc.
Qed.

Lemma polling_goes_on_witness :
  fst (BaseConnector.monitor_health_factor Demo.env Demo.connector 3
         (Demo.world []))
  = Running
  /\ clock (snd (BaseConnector.monitor_health_factor Demo.env Demo.connector 3
                   (Demo.world [])))
     = 0 + HEALTH_FACTOR_CHECK_PERIOD * 3
  /\ slept (trace (snd (BaseConnector.monitor_health_factor Demo.env
                          Demo.connector 3 (Demo.world []))))
     = [] ++ repeat HEALTH_FACTOR_CHECK_PERIOD 3.
Proof.
  apply (polling_goes_on Demo.env Demo.connector).
  intros w.
  rewrite (health_factor_periodic_task_run Demo.env Demo.connector w
             [Demo.alice; Demo.bob; Demo.carol] eq_refl);
    [reflexivity | | | reflexivity].
  - repeat constructor. eexists. split; [reflexivity | apply length_map].
  - repeat constructor. eexists. split; [reflexivity | apply length_map].
Defined.

(** ** [catchup_on_liquidations], case by case *)

(** Property X13. When the V2 historical query fails, the pass raises that failure: no
    log is handed on and the V3 query is never issued. *)
Theorem catchup_v2_failure {HF : Type} (E : Env HF) (self : BaseConnector.t)
    (w : World HF) (reason : string) :
  let f2 := BaseConnector.v2_filter E self
              (settings w !! BaseConnector.checkpoint_key self "V2") in
  get_logs E f2 = Fails reason ->
  BaseConnector.catchup_on_liquidations E self w
  = (Raise (ExternalError reason), extend w [EvGetLogs f2]).
Proof.
  intros f2 H2. unfold BaseConnector.catchup_on_liquidations.
  unfold bind at 1. unfold get_setting at 1. fold f2.
  unfold bind at 1. unfold BaseConnector.eth_get_logs at 1.
  unfold bind at 1. rewrite emit_extend. unfold lift at 1. by rewrite H2.
Qed.

Lemma catchup_v2_failure_witness :
  BaseConnector.catchup_on_liquidations Faults.logs_down Demo.connector
    (Demo.world [])
  = (Raise (ExternalError "rpc down"),
     extend (Demo.world [])
       [EvGetLogs {| filter_address := "0xpool2"; filter_topics := ["0xtopic2"];
                     fromBlock := Some 5; toBlock := "latest" |}]).
Proof.
  apply (catchup_v2_failure Faults.logs_down Demo.connector (Demo.world [])
           "rpc down" eq_refl).
Defined.

(** Property X14. When the V3 historical query fails after the V2 one was answered, every
    V2 log has already been handed on, in order, before the failure is
    raised. *)
Theorem catchup_v3_failure {HF : Type} (E : Env HF) (self : BaseConnector.t)
    (w : World HF) (v2_logs : list Log) (reason : string) :
  let f2 := BaseConnector.v2_filter E self
              (settings w !! BaseConnector.checkpoint_key self "V2") in
  let f3 := BaseConnector.v3_filter E self
              (settings w !! BaseConnector.checkpoint_key self "V3") in
  get_logs E f2 = Returns v2_logs ->
  get_logs E f3 = Fails reason ->
  BaseConnector.catchup_on_liquidations E self w
  = (Raise (ExternalError reason),
     extend w ([EvGetLogs f2] ++ map (EvProcessLiquidationLog "V2") v2_logs
               ++ [EvGetLogs f3])).
Proof.
  intros f2 f3 H2 H3. unfold BaseConnector.catchup_on_liquidations.
  unfold bind at 1. unfold get_setting at 1. fold f2.
  unfold bind at 1. unfold BaseConnector.eth_get_logs at 1.
  unfold bind at 1. rewrite emit_extend. unfold lift at 1. rewrite H2.
  cbn [to_result]. unfold bind at 1. rewrite process_logs_run.
  unfold bind at 1. unfold get_setting at 1. cbn [settings extend]. fold f3.
  unfold bind at 1. unfold BaseConnector.eth_get_logs at 1.
  unfold bind at 1. rewrite emit_extend. unfold lift at 1. rewrite H3.
  cbn [to_result]. by rewrite !extend_extend.
Qed.

Lemma catchup_v3_failure_witness :
  fst (BaseConnector.catchup_on_liquidations Faults.v3_logs_down Demo.connector
         (Demo.world []))
  = Raise (ExternalError "rpc down")
  /\ processed (trace (snd (BaseConnector.catchup_on_liquidations
                              Faults.v3_logs_down Demo.connector (Demo.world []))))
     = [("V2", Demo.log_at 6); ("V2", Demo.log_at 7)].
Proof.
  rewrite (catchup_v3_failure Faults.v3_logs_down Demo.connector (Demo.world [])
             [Demo.log_at 6; Demo.log_at 7] "rpc down" eq_refl eq_refl).
  split; reflexivity.
Defined.

(** Property X15. A second pass issues the two queries of the first again and, the chain
    answering them as before, hands every log on a second time. *)
Theorem catchup_twice {HF : Type} (E : Env HF) (self : BaseConnector.t)
    (w : World HF) (v2_logs v3_logs : list Log) :
  let f2 := BaseConnector.v2_filter E self
              (settings w !! BaseConnector.checkpoint_key self "V2") in
  let f3 := BaseConnector.v3_filter E self
              (settings w !! BaseConnector.checkpoint_key self "V3") in
  let once := map (pair "V2") v2_logs ++ map (pair "V3") v3_logs in
  get_logs E f2 = Returns v2_logs ->
  get_logs E f3 = Returns v3_logs ->
  exists w' : World HF,
    (BaseConnector.catchup_on_liquidations E self ;;
     BaseConnector.catchup_on_liquidations E self) w = (Ok tt, w')
    /\ queried (trace w') = queried (trace w) ++ [f2; f3; f2; f3]
    /\ processed (trace w') = processed (trace w) ++ once ++ once.
Proof.
  intros f2 f3 once H2 H3.
  pose proof (catchup_run E self w v2_logs v3_logs H2 H3) as Hfirst.
  pose proof (catchup_run E self
                (extend w ([EvGetLogs f2]
                           ++ map (EvProcessLiquidationLog "V2") v2_logs
                           ++ [EvGetLogs f3]
                           ++ map (EvProcessLiquidationLog "V3") v3_logs))
                v2_logs v3_logs H2 H3) as Hsecond.
  fold f2 f3 in Hfirst. cbn [settings extend] in Hsecond. fold f2 f3 in Hsecond.
  eexists. split.
  { unfold bind. rewrite Hfirst. exact Hsecond. }
  cbn [trace extend settings].
  fold f2 f3.
  rewrite !queried_app, !processed_app, !queried_forwarded, !processed_forwarded.
  simpl. rewrite ?app_nil_r. subst once. split; by reassociate.
Qed.

Lemma catchup_twice_witness :
  exists w' : World Z,
    (BaseConnector.catchup_on_liquidations Demo.env Demo.connector ;;
     BaseConnector.catchup_on_liquidations Demo.env Demo.connector)
      (Demo.world [])
    = (Ok tt, w')
    /\ processed (trace w')
       = [("V2", Demo.log_at 6); ("V2", Demo.log_at 7);
          ("V2", Demo.log_at 6); ("V2", Demo.log_at 7)].
Proof.
  destruct (catchup_twice Demo.env Demo.connector (Demo.world [])
              [Demo.log_at 6; Demo.log_at 7] [] eq_refl eq_refl)
    as (w' & Hrun & _ & Hprocessed).
  exists w'. split; [exact Hrun | exact Hprocessed].
Defined.

(** ** [monitor_liquidations], case by case *)

Lemma subscribe_and_listen_unfold {HF : Type} (E : Env HF)
    (self : BaseConnector.t) (v pool topic : string) :
  BaseConnector.subscribe_and_listen E self v pool topic
  = BaseConnector.async_with_connect E (BaseConnector.ws_rpc_url self)
      (emit (EvSend (json_dumps E (build_subscription_message pool topic))) ;;
       listen E self v).
Proof. reflexivity. Qed.

(** Property X18. When the connection cannot be opened, [monitor_liquidations] raises that
    failure: nothing is sent, no frame is taken, and there is no connection
    to close. *)
Theorem monitor_liquidations_unreachable {HF : Type} (E : Env HF)
    (self : BaseConnector.t) (v : string) (w : World HF) (reason : string) :
  v = "V2" \/ v = "V3" ->
  connect E (BaseConnector.ws_rpc_url self) = Fails reason ->
  BaseConnector.monitor_liquidations E self v w
  = (Raise (ExternalError reason),
     extend w [EvConnect (BaseConnector.ws_rpc_url self)]).
Proof.
  intros Hv Hconnect.
  destruct (monitor_liquidations_valid E self v Hv) as (pool & topic & ->).
  unfold BaseConnector.subscribe_and_listen, BaseConnector.async_with_connect.
  unfold bind at 1. rewrite emit_extend. unfold bind at 1. unfold lift at 1.
  by rewrite Hconnect.
Qed.

Lemma monitor_liquidations_unreachable_witness :
  BaseConnector.monitor_liquidations Faults.unreachable Demo.connector "V2"
    (Demo.world [Demo.ack_frame])
  = (Raise (ExternalError "refused"),
     extend (Demo.world [Demo.ack_frame]) [EvConnect "ws://node"]).
Proof.
  apply (monitor_liquidations_unreachable Faults.unreachable Demo.connector "V2"
           (Demo.world [Demo.ack_frame]) "refused"); [by left | reflexivity].
Defined.

(** The run up to the acknowledgment: the connection is opened, the
    subscription sent, and the rest is [listen], after which the connection
    is closed. *)
Lemma monitor_liquidations_connected {HF : Type} (E : Env HF)
    (self : BaseConnector.t) (v : string) (w : World HF) :
  v = "V2" \/ v = "V3" ->
  connect E (BaseConnector.ws_rpc_url self) = Returns tt ->
  exists payload : string,
    BaseConnector.monitor_liquidations E self v w
    = (fst (listen E self v
              (extend w [EvConnect (BaseConnector.ws_rpc_url self);
                         EvSend payload])),
       extend (snd (listen E self v
                      (extend w [EvConnect (BaseConnector.ws_rpc_url self);
                                 EvSend payload])))
         [EvClose]).
Proof.
  intros Hv Hconnect.
  destruct (monitor_liquidations_valid E self v Hv) as (pool & topic & ->).
  exists (json_dumps E (build_subscription_message pool topic)).
  rewrite subscribe_and_listen_unfold. unfold BaseConnector.async_with_connect.
  unfold bind at 1. rewrite emit_extend. unfold bind at 1. unfold lift at 1.
  rewrite Hconnect. cbn [to_result]. unfold bind at 1.
  rewrite emit_extend, (extend_extend w). cbn [app].
  by destruct (listen E self v _) as [r w'].
Qed.

Lemma listen_closed {HF : Type} (E : Env HF) (self : BaseConnector.t)
    (v : string) (w : World HF) :
  inbox w = [] ->
  listen E self v w = (Raise (ExternalError "ConnectionClosed"), w).
Proof.
  intros Hinbox. unfold listen. unfold bind at 1. unfold ws_recv.
  by rewrite Hinbox.
Qed.

(** Property X19. When the peer closes the connection before acknowledging, the failure
    of [ws.recv()] is raised as it is, not as a [StartupException]; the
    connection is closed. *)
Theorem monitor_liquidations_no_acknowledgment {HF : Type} (E : Env HF)
    (self : BaseConnector.t) (v : string) (w : World HF) :
  v = "V2" \/ v = "V3" ->
  connect E (BaseConnector.ws_rpc_url self) = Returns tt ->
  inbox w = [] ->
  exists payload : string,
    BaseConnector.monitor_liquidations E self v w
    = (Raise (ExternalError "ConnectionClosed"),
       extend w [EvConnect (BaseConnector.ws_rpc_url self); EvSend payload;
                 EvClose]).
Proof.
  intros Hv Hconnect Hinbox.
  destruct (monitor_liquidations_connected E self v w Hv Hconnect)
    as (payload & ->).
  exists payload. rewrite listen_closed by exact Hinbox. cbn [fst snd].
  by rewrite extend_extend.
Qed.

Lemma monitor_liquidations_no_acknowledgment_witness :
  exists payload : string,
    BaseConnector.monitor_liquidations Demo.env Demo.connector "V3"
      (Demo.world [])
    = (Raise (ExternalError "ConnectionClosed"),
       extend (Demo.world []) [EvConnect "ws://node"; EvSend payload; EvClose]).
Proof.
  apply (monitor_liquidations_no_acknowledgment Demo.env Demo.connector "V3"
           (Demo.world [])); [by right | reflexivity | reflexivity].
Defined.

(** What [listen] does with an acknowledgment that is there. *)
Lemma listen_acknowledgment {HF : Type} (E : Env HF) (self : BaseConnector.t)
    (v : string) (w : World HF) (ack : string) (frames : list string) :
  inbox w = ack :: frames ->
  let w1 := {| settings := settings w; clock := clock w; inbox := frames;
               trace := trace w |} in
  listen E self v w
  = match json_loads E ack with
    | JSONDecodeError =>
        (Raise (StartupException
                  ("Failed to decode subscription response " +:+ ack +:+ " for "
                   +:+ name (BaseConnector.chain self) +:+ " aave " +:+ v)), w1)
    | LoadsRaises e => (Raise (loads_exception e), w1)
    | Decoded decoded =>
        match PyIn.contains "error" decoded with
        | Raise e => (Raise e, w1)
        | Ok true =>
            (Raise (StartupException
                      ("Failed to subscribe to liquidations for "
                       +:+ name (BaseConnector.chain self) +:+ " aave " +:+ v
                       +:+ ". Subscription response was "
                       +:+ json_str E decoded)), w1)
        | Ok false =>
            BaseConnector.message_loop E self frames
              (extend w1 [EvLog INFO
                            ("Successfully subscribed to liquidations for "
                             +:+ name (BaseConnector.chain self)
                             +:+ " aave " +:+ v)])
        end
    end.
Proof.
  intros Hinbox w1. unfold listen. unfold bind at 1. unfold ws_recv.
  rewrite Hinbox. fold w1.
  destruct (json_loads E ack) as [decoded | | e]; [| reflexivity | reflexivity].
  unfold bind at 1. unfold ret at 1. unfold bind at 1. unfold lift at 1.
  destruct (PyIn.contains "error" decoded) as [[|] | e]; reflexivity.
Qed.

(** Property X20. An acknowledgment that does not decode ends the run, the
    connection closed and the frames behind it not taken: with a
    [StartupException] when [json.loads] raises [JSONDecodeError], and with
    the exception of [json.loads] as it is when it raises another one. *)
Theorem monitor_liquidations_undecodable_acknowledgment {HF : Type} (E : Env HF)
    (self : BaseConnector.t) (v : string) (w : World HF) (ack : string)
    (frames : list string) :
  v = "V2" \/ v = "V3" ->
  connect E (BaseConnector.ws_rpc_url self) = Returns tt ->
  inbox w = ack :: frames ->
  (forall decoded : Json, json_loads E ack <> Decoded decoded) ->
  exists (e : exn) (payload : string),
    BaseConnector.monitor_liquidations E self v w
    = (Raise e,
       {| settings := settings w; clock := clock w; inbox := frames;
          trace := trace w ++ [EvConnect (BaseConnector.ws_rpc_url self);
                               EvSend payload; EvClose] |})
    /\ (json_loads E ack = JSONDecodeError ->
        exists msg : string, e = StartupException msg)
    /\ (forall e' : loads_error,
          json_loads E ack = LoadsRaises e' -> e = loads_exception e').
Proof.
  intros Hv Hconnect Hinbox Hack.
  destruct (monitor_liquidations_connected E self v w Hv Hconnect)
    as (payload & ->).
  rewrite (listen_acknowledgment E self v _ ack frames) by exact Hinbox.
  destruct (json_loads E ack) as [decoded | | e'] eqn:Hloads;
    [by destruct (Hack decoded) | |];
    eexists; exists payload; cbn [fst snd]; unfold extend;
    cbn [settings clock inbox trace].
  - split; [f_equal; f_equal; by reassociate |].
    split; [intros _; by eexists | discriminate].
  - split; [f_equal; f_equal; by reassociate |].
    split; [discriminate | by intros e0 [= ->]].
Qed.

Lemma monitor_liquidations_undecodable_acknowledgment_witness :
  (exists (e : exn) (payload : string),
      BaseConnector.monitor_liquidations Demo.env Demo.connector "V2"
        (Demo.world [Demo.noise_frame; Demo.log_frame])
      = (Raise e,
         {| settings := settings (Demo.world []); clock := 0;
            inbox := [Demo.log_frame];
            trace := [EvConnect "ws://node"; EvSend payload; EvClose] |})
      /\ (Demo.loads Demo.noise_frame = JSONDecodeError ->
          exists msg : string, e = StartupException msg)
      /\ (forall e' : loads_error,
            Demo.loads Demo.noise_frame = LoadsRaises e' ->
            e = loads_exception e'))
  /\ (exists (e : exn) (payload : string),
         BaseConnector.monitor_liquidations Demo.env Demo.connector "V2"
           (Demo.world [Demo.digits_frame; Demo.log_frame])
         = (Raise e,
            {| settings := settings (Demo.world []); clock := 0;
               inbox := [Demo.log_frame];
               trace := [EvConnect "ws://node"; EvSend payload; EvClose] |})
         /\ (Demo.loads Demo.digits_frame = JSONDecodeError ->
             exists msg : string, e = StartupException msg)
         /\ (forall e' : loads_error,
               Demo.loads Demo.digits_frame = LoadsRaises e' ->
               e = loads_exception e')).
Proof.
  split.
  - apply (monitor_liquidations_undecodable_acknowledgment Demo.env
             Demo.connector "V2"
             (Demo.world [Demo.noise_frame; Demo.log_frame])
             Demo.noise_frame [Demo.log_frame]);
      [by left | reflexivity | reflexivity | by vm_compute].
  - apply (monitor_liquidations_undecodable_acknowledgment Demo.env
             Demo.connector "V2"
             (Demo.world [Demo.digits_frame; Demo.log_frame])
             Demo.digits_frame [Demo.log_frame]);
      [by left | reflexivity | reflexivity | by vm_compute].
Defined.

(** Property X21. An acknowledgment that decodes to [None], a [bool] or a number makes
    the test ['error' in ...] raise [TypeError], which leaves
    [monitor_liquidations] as it is; the connection is closed. *)
Theorem monitor_liquidations_scalar_acknowledgment {HF : Type} (E : Env HF)
    (self : BaseConnector.t) (v : string) (w : World HF) (ack : string)
    (frames : list string) (decoded : Json) :
  v = "V2" \/ v = "V3" ->
  connect E (BaseConnector.ws_rpc_url self) = Returns tt ->
  inbox w = ack :: frames ->
  json_loads E ack = Decoded decoded ->
  scalar decoded ->
  exists msg payload : string,
    BaseConnector.monitor_liquidations E self v w
    = (Raise (TypeError msg),
       {| settings := settings w; clock := clock w; inbox := frames;
          trace := trace w ++ [EvConnect (BaseConnector.ws_rpc_url self);
                               EvSend payload; EvClose] |}).
Proof.
  intros Hv Hconnect Hinbox Hack Hscalar.
  destruct (monitor_liquidations_connected E self v w Hv Hconnect)
    as (payload & ->).
  rewrite (listen_acknowledgment E self v _ ack frames) by exact Hinbox.
  rewrite Hack.
  assert (Hin : PyIn.contains "error" decoded
                = Raise (TypeError "argument is not iterable"))
    by (destruct decoded; simpl in Hscalar; done).
  rewrite Hin. eexists. exists payload. cbn [fst snd].
  unfold extend. cbn [settings clock inbox trace]. f_equal. f_equal.
  by reassociate.
Qed.

Lemma monitor_liquidations_scalar_acknowledgment_witness :
  exists msg payload : string,
    BaseConnector.monitor_liquidations Faults.talkative Demo.connector "V2"
      (Demo.world [Faults.number_frame; Demo.log_frame])
    = (Raise (TypeError msg),
       {| settings := settings (Demo.world []); clock := 0;
          inbox := [Demo.log_frame];
          trace := [EvConnect "ws://node"; EvSend payload; EvClose] |}).
Proof.
  apply (monitor_liquidations_scalar_acknowledgment Faults.talkative
           Demo.connector "V2"
           (Demo.world [Faults.number_frame; Demo.log_frame])
           Faults.number_frame [Demo.log_frame] (JInt 7));
    [by left | reflexivity | reflexivity | reflexivity | exact I].
Defined.

Lemma prefix_append (needle rest : string) :
  String.prefix needle (needle +:+ rest) = true.
Proof.
  induction needle as [| c needle IH]; [by destruct rest |].
  change (String c needle +:+ rest) with (String c (needle +:+ rest)).
  simpl. by destruct (Ascii.ascii_dec c c).
Qed.

Lemma occurs_unfold (needle s : string) :
  PyIn.occurs needle s
  = String.prefix needle s
    || match s with
       | EmptyString => false
       | String _ rest => PyIn.occurs needle rest
       end.
Proof. by destruct s. Qed.

Lemma occurs_inside (needle before after : string) :
  PyIn.occurs needle (before +:+ needle +:+ after) = true.
Proof.
  induction before as [| c before IH].
  - change ("" +:+ needle +:+ after) with (needle +:+ after).
    by rewrite occurs_unfold, prefix_append.
  - change (String c before +:+ needle +:+ after)
      with (String c (before +:+ needle +:+ after)).
    rewrite occurs_unfold, IH. apply orb_true_r.
Qed.

(** Property X22. The test ['error' in ...] is not a test for a key only: an
    acknowledgment that decodes to a string in which [error] occurs, or to a
    list with the element ['error'], is taken for a rejection and raises
    [StartupException]. *)
Theorem monitor_liquidations_error_mentioned {HF : Type} (E : Env HF)
    (self : BaseConnector.t) (v : string) (w : World HF) (ack : string)
    (frames : list string) (decoded : Json) :
  v = "V2" \/ v = "V3" ->
  connect E (BaseConnector.ws_rpc_url self) = Returns tt ->
  inbox w = ack :: frames ->
  json_loads E ack = Decoded decoded ->
  (exists before after : string, decoded = JStr (before +:+ "error" +:+ after))
  \/ (exists items : list Json, decoded = JArr items /\ In (JStr "error") items) ->
  exists msg payload : string,
    BaseConnector.monitor_liquidations E self v w
    = (Raise (StartupException msg),
       {| settings := settings w; clock := clock w; inbox := frames;
          trace := trace w ++ [EvConnect (BaseConnector.ws_rpc_url self);
                               EvSend payload; EvClose] |}).
Proof.
  intros Hv Hconnect Hinbox Hack Hmention.
  destruct (monitor_liquidations_connected E self v w Hv Hconnect)
    as (payload & ->).
  rewrite (listen_acknowledgment E self v _ ack frames) by exact Hinbox.
  rewrite Hack.
  assert (Hin : PyIn.contains "error" decoded = Ok true).
  { destruct Hmention as [(before & after & ->) | (items & -> & Hitem)]; simpl.
    - by rewrite occurs_inside.
    - f_equal. apply existsb_exists. exists (JStr "error"). by split. }
  rewrite Hin. eexists. exists payload. cbn [fst snd].
  unfold extend. cbn [settings clock inbox trace]. f_equal. f_equal.
  by reassociate.
Qed.

Lemma monitor_liquidations_error_mentioned_witness :
  exists msg payload : string,
    BaseConnector.monitor_liquidations Faults.talkative Demo.connector "V2"
      (Demo.world [Faults.string_frame; Demo.log_frame])
    = (Raise (StartupException msg),
       {| settings := settings (Demo.world []); clock := 0;
          inbox := [Demo.log_frame];
          trace := [EvConnect "ws://node"; EvSend payload; EvClose] |}).
Proof.
  apply (monitor_liquidations_error_mentioned Faults.talkative Demo.connector
           "V2" (Demo.world [Faults.string_frame; Demo.log_frame])
           Faults.string_frame [Demo.log_frame] (JStr "no error"));
    [by left | reflexivity | reflexivity | reflexivity |].
  left. by exists "no ", "".
Defined.






(** ** [monitor_liquidations], on every path *)

Lemma subscribe_and_listen_connected {HF : Type} (E : Env HF)
    (self : BaseConnector.t) (v pool topic : string) (w : World HF) :
  connect E (BaseConnector.ws_rpc_url self) = Returns tt ->
  let w1 := extend w [EvConnect (BaseConnector.ws_rpc_url self);
                      EvSend (json_dumps E
                                (build_subscription_message pool topic))] in
  BaseConnector.subscribe_and_listen E self v pool topic w
  = (fst (listen E self v w1), extend (snd (listen E self v w1)) [EvClose]).
Proof.
  intros Hconnect w1.
  rewrite subscribe_and_listen_unfold. unfold BaseConnector.async_with_connect.
  unfold bind at 1. rewrite emit_extend. unfold bind at 1. unfold lift at 1.
  rewrite Hconnect. cbn [to_result]. unfold bind at 1.
  rewrite emit_extend, (extend_extend w). cbn [app]. fold w1.
  by destruct (listen E self v w1) as [r w'].
Qed.

(** Property X24. A connection that was opened is closed, however the run ends: by an
    exception or by the end of the message loop, the last thing done is to
    close it. *)
Theorem monitor_liquidations_closes {HF : Type} (E : Env HF)
    (self : BaseConnector.t) (v : string) (w : World HF) :
  v = "V2" \/ v = "V3" ->
  connect E (BaseConnector.ws_rpc_url self) = Returns tt ->
  last (trace (snd (BaseConnector.monitor_liquidations E self v w)))
  = Some EvClose.
Proof.
  intros Hv Hconnect.
  destruct (monitor_liquidations_valid E self v Hv) as (pool & topic & ->).
  rewrite (subscribe_and_listen_connected E self v pool topic w Hconnect).
  cbn [snd trace extend]. apply last_snoc.
Qed.

Lemma monitor_liquidations_closes_witness :
  last (trace (snd (BaseConnector.monitor_liquidations Faults.talkative
                      Demo.connector "V3"
                      (Demo.world [Faults.number_frame; Demo.log_frame]))))
  = Some EvClose.
Proof.
  apply (monitor_liquidations_closes Faults.talkative Demo.connector "V3");
    [by right | reflexivity].
Defined.

Section Listening.

Context {HF : Type} (R : World HF -> World HF -> Prop).
Context (E : Env HF) (self : BaseConnector.t).

Hypothesis R_refl : forall w, R w w.
Hypothesis R_trans : forall w1 w2 w3, R w1 w2 -> R w2 w3 -> R w1 w3.
Hypothesis R_log : forall w lvl msg, R w (extend w [EvLog lvl msg]).
Hypothesis R_print : forall w j, R w (extend w [EvPrint j]).
Hypothesis R_close : forall w, R w (extend w [EvClose]).
Hypothesis R_inbox :
  forall w rest,
    R w {| settings := settings w; clock := clock w; inbox := rest;
           trace := trace w |}.

Lemma respects_ws_recv : respects R ws_recv.
Proof.
  intros w. unfold ws_recv. destruct (inbox w); [apply R_refl | apply R_inbox].
Qed.

Lemma respects_message_loop (frames : list string) :
  respects R (BaseConnector.message_loop E self frames).
Proof.
  induction frames as [| raw rest IH].
  - by apply respects_emit.
  - cbn [BaseConnector.message_loop].
    apply respects_bind; [exact R_trans | intros w; apply R_inbox |].
    intros _. destruct (json_loads E raw).
    + apply respects_bind; [exact R_trans | by apply respects_emit |].
      by intros _.
    + apply respects_bind; [exact R_trans | by apply respects_emit |].
      by intros _.
    + by apply respects_raise.
Qed.

Lemma respects_listen (v : string) : respects R (listen E self v).
Proof.
  unfold listen.
  apply respects_bind; [exact R_trans | apply respects_ws_recv |]. intros raw.
  apply respects_bind; [exact R_trans | |].
  { destruct (json_loads E raw);
      [by apply respects_ret | by apply respects_raise | by apply respects_raise]. }
  intros decoded.
  apply respects_bind; [exact R_trans | by apply respects_lift |].
  intros [|]; [by apply respects_raise |].
  apply respects_bind; [exact R_trans | by apply respects_emit |].
  intros _ w. apply respects_message_loop.
Qed.

Lemma respects_closing {A : Type} (body : M HF A) :
  respects R body ->
  respects R (fun w => match body w with
                       | (r, w') => (r, snd (emit EvClose w'))
                       end).
Proof.
  intros Hbody w. specialize (Hbody w).
  destruct (body w) as [r w']. simpl in *.
  eapply R_trans; [exact Hbody | apply R_close].
Qed.

End Listening.

(** Property X25. On every path and for every version string, [monitor_liquidations]
    leaves the Checkpoint store and the clock as they were, notifies nobody
    and issues no historical query. *)
Theorem monitor_liquidations_frame {HF : Type} (E : Env HF)
    (self : BaseConnector.t) (v : string) (w : World HF) :
  monitor_frame w (snd (BaseConnector.monitor_liquidations E self v w)).
Proof.
  revert w. change (respects monitor_frame
                      (BaseConnector.monitor_liquidations E self v)).
  pose proof (@monitor_frame_trans HF) as Htrans.
  pose proof (@monitor_frame_refl HF) as Hrefl.
  unfold BaseConnector.monitor_liquidations.
  destruct (BaseConnector.select_pool E self v) as [[pool topic] | e];
    [| by apply respects_raise].
  rewrite subscribe_and_listen_unfold. unfold BaseConnector.async_with_connect.
  apply respects_bind; [exact Htrans | apply respects_emit; frame |]. intros _.
  apply respects_bind; [exact Htrans | by apply respects_lift |]. intros _.
  apply respects_closing; [exact Htrans | frame |].
  apply respects_bind; [exact Htrans | apply respects_emit; frame |]. intros _.
  apply respects_listen; try done; frame.
Qed.

Lemma sent_app {HF : Type} (tr1 tr2 : list (event HF)) :
  sent (tr1 ++ tr2) = sent tr1 ++ sent tr2.
Proof. apply flat_map_app. Qed.

(** Property X26. On a connection that was opened, exactly one message is sent, whatever
    the peer answers and however the run ends: the subscription to the logs
    of the pool and the topic of the version. *)
Theorem monitor_liquidations_sends_once {HF : Type} (E : Env HF)
    (self : BaseConnector.t) (v pool topic : string) (w : World HF) :
  BaseConnector.select_pool E self v = Ok (pool, topic) ->
  connect E (BaseConnector.ws_rpc_url self) = Returns tt ->
  sent (trace (snd (BaseConnector.monitor_liquidations E self v w)))
  = sent (trace w) ++ [json_dumps E (build_subscription_message pool topic)].
Proof.
  intros Hpool Hconnect. unfold BaseConnector.monitor_liquidations.
  rewrite Hpool.
  rewrite (subscribe_and_listen_connected E self v pool topic w Hconnect).
  cbn [snd trace extend]. rewrite sent_app. simpl. rewrite app_nil_r.
  rewrite (respects_listen listening_frame E self
             (@listening_frame_refl HF) (@listening_frame_trans HF)
             ltac:(frame) ltac:(frame) ltac:(frame) v).
  cbn [trace extend]. rewrite sent_app. reflexivity.
Qed.

Lemma monitor_liquidations_sends_once_witness :
  sent (trace (snd (BaseConnector.monitor_liquidations Demo.env Demo.connector
                      "V2"
                      (Demo.world [Demo.ack_frame; Demo.noise_frame;
                                   Demo.log_frame]))))
  = [] ++ [json_dumps Demo.env (build_subscription_message "0xpool2" "0xtopic2")].
Proof.
  apply (monitor_liquidations_sends_once Demo.env Demo.connector "V2"
           "0xpool2" "0xtopic2"); reflexivity.
Defined.

(** ** The keys of checkpoints and of endpoints *)

Lemma length_append (a s : string) :
  String.length (a +:+ s) = (String.length a + String.length s)%nat.
Proof.
  induction a as [| c a IH]; [reflexivity |].
  change (String c a +:+ s) with (String c (a +:+ s)). simpl. by rewrite IH.
Qed.

(** Two strings that end in parts of the same length and are equal have
    equal beginnings and equal ends. *)
Lemma append_cancel (a b s t : string) :
  String.length s = String.length t ->
  a +:+ s = b +:+ t -> a = b /\ s = t.
Proof.
  intros Hlen. revert b. induction a as [| c a IH]; intros [| d b] Heq.
  - by split.
  - change ("" +:+ s) with s in Heq. subst s.
    rewrite length_append in Hlen. simpl in Hlen. lia.
  - change ("" +:+ t) with t in Heq. subst t.
    rewrite length_append in Hlen. simpl in Hlen. lia.
  - change (String c a +:+ s) with (String c (a +:+ s)) in Heq.
    change (String d b +:+ t) with (String d (b +:+ t)) in Heq.
    injection Heq as -> Heq. destruct (IH b Heq) as [-> ->]. by split.
Qed.

(** Of two equal strings, the shorter of the two ends is the end of the
    longer. *)
Lemma append_suffix (a b s t : string) :
  (String.length s <= String.length t)%nat ->
  a +:+ s = b +:+ t -> exists c : string, t = c +:+ s.
Proof.
  intros Hlen. revert b. induction a as [| x a IH]; intros [| y b] Heq.
  - exists "". by rewrite Heq.
  - change ("" +:+ s) with s in Heq. subst s.
    rewrite length_append in Hlen. simpl in Hlen. lia.
  - change ("" +:+ t) with t in Heq. subst t. by exists (String x a).
  - change (String x a +:+ s) with (String x (a +:+ s)) in Heq.
    change (String y b +:+ t) with (String y (b +:+ t)) in Heq.
    injection Heq as _ Heq. by apply (IH b).
Qed.

(** Property X27. The Checkpoint keys of two chains, or of the two versions of a chain,
    are never the same key: the key tells the chain name and the version. *)
Theorem checkpoint_keys_distinct (self1 self2 : BaseConnector.t)
    (v1 v2 : string) :
  v1 = "V2" \/ v1 = "V3" ->
  v2 = "V2" \/ v2 = "V3" ->
  BaseConnector.checkpoint_key self1 v1 = BaseConnector.checkpoint_key self2 v2 ->
  name (BaseConnector.chain self1) = name (BaseConnector.chain self2)
  /\ v1 = v2.
Proof.
  intros Hv1 Hv2 Hkey. unfold BaseConnector.checkpoint_key in Hkey.
  apply String.app_inj in Hkey.
  apply append_cancel in Hkey as [Hname Hrest].
  - split; [exact Hname |].
    destruct Hv1 as [-> | ->], Hv2 as [-> | ->]; try reflexivity;
      vm_compute in Hrest; discriminate Hrest.
  - by destruct Hv1 as [-> | ->], Hv2 as [-> | ->].
Qed.

Lemma checkpoint_keys_distinct_witness :
  name (BaseConnector.chain Demo.connector)
  = name (BaseConnector.chain Demo.connector)
  /\ "V3" = "V3".
Proof.
  apply (checkpoint_keys_distinct Demo.connector Demo.connector "V3" "V3");
    [by right | by right | reflexivity].
Defined.

Lemma endpoint_keys_differ (name1 name2 : string) :
  name1 +:+ "_WS_RPC" <> name2 +:+ "_HTTP_RPC".
Proof.
  intros Heq. apply append_suffix in Heq as [c Hc]; [| simpl; lia].
  assert (Hlen : String.length c = 2%nat).
  { apply (f_equal String.length) in Hc. rewrite length_append in Hc.
    simpl in Hc. lia. }
  destruct c as [| x [| y [| z c]]]; try discriminate Hlen.
  vm_compute in Hc. discriminate Hc.
Qed.

(** Property X28. The endpoints configured for one chain do not serve another: in an
    environment that holds the two variables of a chain and no other, the
    construction for a chain of another name raises [StartupException]. *)
Theorem init_other_chain {HF : Type} (E : Env HF) (c1 c2 : Chain)
    (http ws v2_pool v3_pool : string) :
  environ E = <[name c1 +:+ "_HTTP_RPC" := http]>
                (<[name c1 +:+ "_WS_RPC" := ws]> ∅) ->
  name c1 <> name c2 ->
  exists msg : string,
    BaseConnector.__init__ E c2 v2_pool v3_pool = Raise (StartupException msg).
Proof.
  intros Henv Hname. unfold BaseConnector.__init__.
  assert (Hmiss : environ E !! (name c2 +:+ "_WS_RPC") = None).
  { rewrite Henv. rewrite lookup_insert_ne.
    - rewrite lookup_insert_ne; [apply lookup_empty |].
      intros Heq. apply append_cancel in Heq as [Heq _]; [| reflexivity].
      by apply Hname.
    - intros Heq. symmetry in Heq. by apply endpoint_keys_differ in Heq. }
  rewrite Hmiss. simpl. rewrite orb_true_r. eauto.
Qed.

Lemma init_other_chain_witness :
  exists msg : string,
    BaseConnector.__init__ Demo.env {| name := "POLYGON" |} "0xpool2" "0xpool3"
    = Raise (StartupException msg).
Proof.
  apply (init_other_chain Demo.env Demo.ETHEREUM {| name := "POLYGON" |}
           "http://node" "ws://node"); [reflexivity | discriminate].
Defined.
